(** * Missing-service imputation of the restaurant dashboard

    A shallow embedding of [impute_missing_services] (data_imputation.py)
    together with the slice of pandas and numpy it runs on, and the
    properties of the imputation pass stated over that embedding; then the
    loader of server.py that calls it, and some of the endpoints and table
    cells of server.py and app.py that read the loaded table.

    Conventions of the embedding:
    - a DataFrame is its list of column labels and its rows in index order,
      each row carrying its index label (an integer);
    - a Series is a list of (label, value) pairs;
    - NaN is [None];
    - float64 values (means, probabilities, random draws) are modelled by
      exact rationals [Q], so rounding of the division in a mean is not
      represented;
    - numpy's process-wide random state is threaded explicitly;
    - an exception raised by pandas is an [Err] result;
    - the [print] calls of the function are not modelled. *)

From Stdlib Require Import QArith Ascii.
From stdpp Require Import gmap strings list fin_maps sorting.

Local Close Scope Q_scope.
Local Open Scope Z_scope.
Local Open Scope nat_scope.

(** ** Errors *)

Inductive error :=
  | KeyError (label : string)
  | IndexingError
  | AttributeError.

Inductive result (A : Type) :=
  | Ok (a : A)
  | Err (e : error).
Arguments Ok {A} a.
Arguments Err {A} e.

Definition rbind {A B} (m : result A) (f : A → result B) : result B :=
  match m with
  | Ok a => f a
  | Err e => Err e
  end.

Notation "'let*' x ':=' m 'in' k" := (rbind m (λ x, k))
  (at level 10, x name, m at level 100, k at level 200).

(** ** Data model *)

(** One row of the cleaned table. [City] is [None] when the cell is NaN;
    the three service cells are already coerced to booleans by the loader.
    [other_columns] holds the remaining cells (name, cuisines, rating, ...),
    which the imputation never reads. *)
Record Row := mkRow {
  City : option string;
  Has_Table_booking : bool;
  Has_Online_delivery : bool;
  Is_delivering_now : bool;
  other_columns : list string
}.

(** A Series: values with their index labels, in index order. *)
Abbreviation Series A := (list (Z * A)).

(** The cleaned table [df]. A cell of a column whose label is not listed in
    [columns] is not part of the frame. *)
Record DataFrame := mkDF {
  columns : list string;
  rows : Series Row
}.

Definition index {A} (s : Series A) : list Z := s.*1.

(** One row of [original_services_df]: the three raw service cells as read
    from the CSV, [None] for NaN. *)
Record RawServices := mkRaw {
  raw_table_booking : option string;
  raw_online_delivery : option string;
  raw_delivering_now : option string
}.

(** A float64 cell that may be NaN. *)
Abbreviation prob := (option Q).

(** ** The pandas and numpy operations used by the function *)

Definition b2n (b : bool) : nat := if b then 1 else 0.

(** [Series.mean()] of a boolean column: sum over count, NaN when empty. *)
Definition ratio (s n : nat) : prob :=
  match n with
  | O => None
  | S _ => Some (Z.of_nat s # Pos.of_nat n)%Q
  end.

Fixpoint sum_bool (l : list bool) : nat :=
  match l with
  | [] => 0
  | b :: l => b2n b + sum_bool l
  end.

Definition mean (l : list bool) : prob := ratio (sum_bool l) (length l).

(** Per-group accumulator of [groupby('City').agg(... 'mean' ...)]:
    the group size and the two column sums. *)
Record Acc := mkAcc {
  acc_count : nat;
  acc_booking : nat;
  acc_delivery : nat
}.

Definition acc_add (a : Acc) (r : Row) : Acc :=
  {| acc_count := S (acc_count a);
     acc_booking := acc_booking a + b2n (Has_Table_booking r);
     acc_delivery := acc_delivery a + b2n (Has_Online_delivery r) |}.

(** One row of the groupby pass. Rows whose key is NaN belong to no group
    ([dropna=True] is the default of [groupby]). *)
Definition group_add (g : gmap string Acc) (lr : Z * Row) : gmap string Acc :=
  match City lr.2 with
  | None => g
  | Some c => <[c := acc_add (default (mkAcc 0 0 0) (g !! c)) lr.2]> g
  end.

Definition groupby_City (rs : Series Row) : gmap string Acc :=
  foldl group_add ∅ rs.

(** The frame [city_probabilities], as a map from the City key to
    (prob_booking, prob_delivery). *)
Definition acc_means (a : Acc) : prob * prob :=
  (ratio (acc_booking a) (acc_count a), ratio (acc_delivery a) (acc_count a)).

Definition has_column (df : DataFrame) (c : string) : bool :=
  bool_decide (c ∈ columns df).

Definition require_column (df : DataFrame) (c : string) : result unit :=
  if has_column df c then Ok () else Err (KeyError c).

Definition city_probabilities (df : DataFrame) : result (gmap string (prob * prob)) :=
  let* _ := require_column df "City" in
  let* _ := require_column df "Has Table booking" in
  let* _ := require_column df "Has Online delivery" in
  Ok (acc_means <$> groupby_City (rows df)).

(** [original_services_df.isnull().all(axis=1)]. *)
Definition isnull {A} (c : option A) : bool :=
  match c with
  | None => true
  | Some _ => false
  end.

Definition all_null (r : RawServices) : bool :=
  isnull (raw_table_booking r) && isnull (raw_online_delivery r) &&
  isnull (raw_delivering_now r).

Definition no_services_mask (original_services_df : Series RawServices) : Series bool :=
  prod_map id all_null <$> original_services_df.

(** First value stored under a label. *)
Fixpoint series_get {A} (s : Series A) (l : Z) : option A :=
  match s with
  | [] => None
  | (l', a) :: s => if bool_decide (l' = l) then Some a else series_get s l
  end.

Fixpoint reindex_bool (key : Series bool) (idx : list Z) : result (list bool) :=
  match idx with
  | [] => Ok []
  | l :: idx =>
      match series_get key l with
      | None => Err IndexingError
      | Some b => let* bs := reindex_bool key idx in Ok (b :: bs)
      end
  end.

(** pandas' [check_bool_indexer]: a boolean Series key whose index equals
    the frame's is used positionally; otherwise it is reindexed to the
    frame's index, and a frame label the key does not have raises
    IndexingError. (The reindexing branch is modelled for keys with unique
    labels.) *)
Definition check_bool_indexer (idx : list Z) (key : Series bool) : result (list bool) :=
  if bool_decide (index key = idx) then Ok key.*2 else reindex_bool key idx.

(** Rows at the positions where the boolean array is true. *)
Fixpoint take_true {A} (bs : list bool) (l : list A) : list A :=
  match bs, l with
  | b :: bs, x :: l => if b then x :: take_true bs l else take_true bs l
  | _, _ => []
  end.

(** [df[key]] for a boolean Series key. *)
Definition getitem_bool (rs : Series Row) (key : Series bool) : result (Series Row) :=
  let* bs := check_bool_indexer (index rs) key in
  Ok (take_true bs rs).

(** A row of [restaurants_to_impute] after the merge: the columns of the
    table row plus the two probability columns. *)
Record Merged := mkMerged {
  m_row : Row;
  prob_booking : prob;
  prob_delivery : prob
}.

Definition lookup_city (probs : gmap string (prob * prob)) (c : option string)
  : option (prob * prob) :=
  c ≫= λ k, probs !! k.

Definition merge_row (probs : gmap string (prob * prob)) (r : Row) : Merged :=
  match lookup_city probs (City r) with
  | Some (pb, pd) => mkMerged r pb pd
  | None => mkMerged r None None
  end.

(** [left.merge(right, on='City', how='left')] with unique keys on the
    right: one output row per left row, in the order of the left rows, the
    probability cells NaN where the key finds no match. A merge on columns
    ignores the index of its inputs: the result carries a fresh
    RangeIndex 0, 1, ..., k-1. *)
Definition merge_left (left : Series Row) (probs : gmap string (prob * prob))
  : Series Merged :=
  imap (λ j lr, (Z.of_nat j, merge_row probs lr.2)) left.

(** [Series.fillna(value)]; filling with NaN leaves NaN. *)
Definition fillna (value : prob) (p : prob) : prob :=
  match p with
  | Some q => Some q
  | None => value
  end.

(** numpy's global random state: the draws still to come. *)
Definition RandomState := nat → Q.

(** [np.random.rand(n)]: the next [n] draws, and the advanced state. *)
Definition rand (n : nat) (st : RandomState) : list Q * RandomState :=
  (st <$> seq 0 n, λ i, st (n + i)).

Definition Qltb (x y : Q) : bool :=
  (Qnum x * Zpos (Qden y) <? Qnum y * Zpos (Qden x))%Z.

(** [draw < p] on float64: false when [p] is NaN. *)
Definition lt_prob (d : Q) (p : prob) : bool :=
  match p with
  | Some q => Qltb d q
  | None => false
  end.

(** [array < series]: elementwise, the result keeps the Series' index. *)
Fixpoint lt_series (draws : list Q) (s : Series prob) : Series bool :=
  match draws, s with
  | d :: draws, (l, p) :: s => (l, lt_prob d p) :: lt_series draws s
  | _, _ => []
  end.

Definition set_booking (b : bool) (r : Row) : Row :=
  mkRow (City r) b (Has_Online_delivery r) (Is_delivering_now r) (other_columns r).

Definition set_delivery (b : bool) (r : Row) : Row :=
  mkRow (City r) (Has_Table_booking r) b (Is_delivering_now r) (other_columns r).

(** [df.loc[value.index, col] = value] for a boolean Series [value]: every
    label of the indexer must be a label of the frame (KeyError otherwise);
    each row whose label is in the indexer receives the value stored under
    its label, every other row is left as it is. *)
Definition loc_write (set : bool → Row → Row) (value : Series bool) (lr : Z * Row)
  : Z * Row :=
  match series_get value lr.1 with
  | Some b => (lr.1, set b lr.2)
  | None => lr
  end.

Definition loc_set (set : bool → Row → Row) (value : Series bool) (rs : Series Row)
  : result (Series Row) :=
  match list_find (λ l, l ∉ index rs) (index value) with
  | Some _ => Err (KeyError "not in index")
  | None => Ok (loc_write set value <$> rs)
  end.

(** ** The function *)

Definition column {A} (f : Row → A) (rs : Series Row) : list A :=
  (λ lr, f lr.2) <$> rs.

Definition global_prob_booking (df : DataFrame) : prob :=
  mean (column Has_Table_booking (rows df)).

Definition global_prob_delivery (df : DataFrame) : prob :=
  mean (column Has_Online_delivery (rows df)).

(** Lines 28-30: the rows of [df] picked by the mask, still under their
    labels in [df]. *)
Definition selected (df : DataFrame) (original_services_df : Series RawServices)
  : result (Series Row) :=
  getitem_bool (rows df) (no_services_mask original_services_df).

(** Lines 39-40: [restaurants_to_impute[col].fillna(g, inplace=True)],
    taken as filling the column of the frame, which is what the statement
    does in a pandas without copy-on-write. *)
Definition fillna_booking (g : prob) (m : Merged) : Merged :=
  mkMerged (m_row m) (fillna g (prob_booking m)) (prob_delivery m).

Definition fillna_delivery (g : prob) (m : Merged) : Merged :=
  mkMerged (m_row m) (prob_booking m) (fillna g (prob_delivery m)).

(** Lines 22-40: [restaurants_to_impute] as it stands when the draws are
    made. *)
Definition restaurants_to_impute (df : DataFrame)
    (original_services_df : Series RawServices) : result (Series Merged) :=
  let* city_probabilities := city_probabilities df in
  let* restaurants_to_impute := selected df original_services_df in
  let restaurants_to_impute := merge_left restaurants_to_impute city_probabilities in
  let restaurants_to_impute :=
    prod_map id (fillna_booking (global_prob_booking df)) <$> restaurants_to_impute in
  let restaurants_to_impute :=
    prod_map id (fillna_delivery (global_prob_delivery df)) <$> restaurants_to_impute in
  Ok restaurants_to_impute.

Definition series_of {A} (f : Merged → A) (t : Series Merged) : Series A :=
  prod_map id f <$> t.

(** Lines 44-45: the two sampled Series and the random state left behind. *)
Definition sample (t : Series Merged) (st : RandomState)
  : Series bool * Series bool * RandomState :=
  let '(draws, st) := rand (length t) st in
  let imputed_booking := lt_series draws (series_of prob_booking t) in
  let '(draws, st) := rand (length t) st in
  let imputed_delivery := lt_series draws (series_of prob_delivery t) in
  (imputed_booking, imputed_delivery, st).

Definition impute_missing_services (df : DataFrame)
    (original_services_df : Series RawServices) (st : RandomState)
  : result (DataFrame * RandomState) :=
  let* restaurants_to_impute := restaurants_to_impute df original_services_df in
  let '(imputed_booking, imputed_delivery, st) := sample restaurants_to_impute st in
  let* rs := loc_set set_booking imputed_booking (rows df) in
  let* rs := loc_set set_delivery imputed_delivery rs in
  Ok (mkDF (columns df) rs, st).

(** The returned table alone. *)
Definition imputed_table (df : DataFrame) (original_services_df : Series RawServices)
    (st : RandomState) : result DataFrame :=
  let* out := impute_missing_services df original_services_df st in Ok out.1.

(** ** Definitions used to state the properties *)

(** The rows of one city. *)
Definition rows_of_city (c : string) (rs : Series Row) : Series Row :=
  filter (λ lr, City lr.2 = Some c) rs.

(** The arithmetic mean of a boolean column read as 0/1 numbers: the sum of
    the values divided by their number, undefined for no value. *)
Definition b2q (b : bool) : Q := if b then 1%Q else 0%Q.

Definition Qsum (l : list Q) : Q := foldr Qplus 0%Q l.

Definition arithmetic_mean (l : list bool) : prob :=
  match l with
  | [] => None
  | _ => Some (Qsum (b2q <$> l) / inject_Z (Z.of_nat (length l)))%Q
  end.

(** Equality of possibly undefined rationals, up to the representation of
    the fraction. *)
Definition prob_eq (p q : prob) : Prop :=
  match p, q with
  | Some x, Some y => (x == y)%Q
  | None, None => True
  | _, _ => False
  end.

(** A defined probability in the closed unit interval. *)
Definition in_unit_interval (p : prob) : Prop :=
  ∃ q, p = Some q ∧ (0 <= q)%Q ∧ (q <= 1)%Q.

(** The accumulator a list of rows adds up to. *)
Definition acc_of (l : Series Row) : Acc :=
  mkAcc (length l) (sum_bool (column Has_Table_booking l))
        (sum_bool (column Has_Online_delivery l)).

(** The mask value pandas aligns to a label of the table: whether the three
    raw service cells recorded under that label are all NaN. *)
Definition eligible (original_services_df : Series RawServices) (l : Z) : bool :=
  default false (all_null <$> series_get original_services_df l).

(** RangeIndex(k). *)
Definition RangeIndex (k : nat) : list Z := Z.of_nat <$> seq 0 k.

(** The labels handed to [df.loc] on lines 48-49:
    [restaurants_to_impute.index]. *)
Definition write_index (df : DataFrame) (original_services_df : Series RawServices)
  : result (list Z) :=
  let* t := restaurants_to_impute df original_services_df in Ok (index t).

(** The probability of a row's city as the merge finds it, NaN when the
    city has no entry. *)
Definition city_prob_booking (probs : gmap string (prob * prob)) (r : Row) : prob :=
  lookup_city probs (City r) ≫= fst.

Definition city_prob_delivery (probs : gmap string (prob * prob)) (r : Row) : prob :=
  lookup_city probs (City r) ≫= snd.

(** The probability a row is sampled with: its city's, or the global one
    where the city's is NaN. *)
Definition resolved_booking (df : DataFrame) (probs : gmap string (prob * prob))
    (r : Row) : prob :=
  fillna (global_prob_booking df) (city_prob_booking probs r).

Definition resolved_delivery (df : DataFrame) (probs : gmap string (prob * prob))
    (r : Row) : prob :=
  fillna (global_prob_delivery df) (city_prob_delivery probs r).

(** The [j]-th row of [restaurants_to_impute], built from the [j]-th
    selected row. *)
Definition merged_row (df : DataFrame) (probs : gmap string (prob * prob))
    (j : nat) (lr : Z * Row) : Z * Merged :=
  (Z.of_nat j, mkMerged lr.2 (resolved_booking df probs lr.2)
                        (resolved_delivery df probs lr.2)).

(** The table [out] is [df] after the two [df.loc] assignments of Series
    indexed by [W]. *)
Definition written_at (W : list Z) (df out : DataFrame) : Prop :=
  ∃ ib idl : Series bool,
    index ib = W ∧ index idl = W ∧
    rows out = loc_write set_delivery idl <$> (loc_write set_booking ib <$> rows df).

(** Malformed input: a table without the city column, or a mask whose index
    is not the table's. *)
Definition malformed (df : DataFrame) (original_services_df : Series RawServices)
  : Prop :=
  has_column df "City" = false ∨ index original_services_df ≠ index (rows df).

Definition signals_error (df : DataFrame) (original_services_df : Series RawServices)
    (st : RandomState) : Prop :=
  ∃ e, impute_missing_services df original_services_df st = Err e.

(** ** Concrete tables *)

Module Examples.

Definition table_columns : list string :=
  ["Restaurant Name"; "City"; "Has Table booking"; "Has Online delivery";
   "Is delivering now"]%string.

(** Two restaurants of one city: the first lists its services, the second
    has all three service cells empty in the CSV. *)
Definition two_rows : DataFrame :=
  mkDF table_columns
       [(0%Z, mkRow (Some "A"%string) true true false ["Cafe One"%string]);
        (1%Z, mkRow (Some "A"%string) false false false ["Cafe Two"%string])].

Definition two_rows_raw : Series RawServices :=
  [(0%Z, mkRaw (Some "Yes"%string) (Some "Yes"%string) (Some "No"%string));
   (1%Z, mkRaw None None None)].

(** Every draw is 0.9. *)
Definition high_draws : RandomState := λ _, (9 # 10)%Q.

Definition two_rows_out : DataFrame :=
  mkDF table_columns
       [(0%Z, mkRow (Some "A"%string) false false false ["Cafe One"%string]);
        (1%Z, mkRow (Some "A"%string) false false false ["Cafe Two"%string])].

Definition empty_table : DataFrame := mkDF table_columns [].

(** A restaurant whose city cell is NaN and whose service cells are all
    empty, next to one that lists its services. *)
Definition nan_city : DataFrame :=
  mkDF table_columns
       [(0%Z, mkRow None false false false ["Cafe Zero"%string]);
        (1%Z, mkRow (Some "A"%string) true false false ["Cafe One"%string])].


(** Every draw is 0.1. *)
Definition low_draws : RandomState := λ _, (1 # 10)%Q.

(** Two restaurants that both list their services, and a mask that has a
    row more than the table. *)
Definition listed_rows : DataFrame :=
  mkDF table_columns
       [(0%Z, mkRow (Some "A"%string) true false false ["Cafe One"%string]);
        (1%Z, mkRow (Some "B"%string) false false false ["Cafe Two"%string])].

Definition listed_raw : Series RawServices :=
  [(0%Z, mkRaw (Some "Yes"%string) (Some "No"%string) (Some "No"%string));
   (1%Z, mkRaw (Some "No"%string) (Some "No"%string) (Some "No"%string))].

Definition longer_raw : Series RawServices :=
  listed_raw ++ [(2%Z, mkRaw None None None)].

(** A mask that lacks the table's second row, and a table without the
    city column. *)
Definition shorter_raw : Series RawServices :=
  [(0%Z, mkRaw (Some "Yes"%string) (Some "No"%string) (Some "No"%string))].

Definition no_city_column : DataFrame :=
  mkDF ["Restaurant Name"; "Has Table booking"; "Has Online delivery";
        "Is delivering now"]%string
       (rows listed_rows).

(** A table with the city column but without 'Has Table booking'. *)
Definition no_booking_column : DataFrame :=
  mkDF ["Restaurant Name"; "City"; "Has Online delivery";
        "Is delivering now"]%string
       (rows listed_rows).

(** The table of [two_rows] after the loader dropped a nameless first
    row: the labels start at 1. *)
Definition gap_rows : DataFrame :=
  mkDF table_columns
       [(1%Z, mkRow (Some "A"%string) true true false ["Cafe One"%string]);
        (2%Z, mkRow (Some "A"%string) false false false ["Cafe Two"%string])].

Definition gap_rows_raw : Series RawServices :=
  [(1%Z, mkRaw (Some "Yes"%string) (Some "Yes"%string) (Some "No"%string));
   (2%Z, mkRaw None None None)].

(** [two_rows] with the restaurant without service data first. *)
Definition eligible_first : DataFrame :=
  mkDF table_columns
       [(0%Z, mkRow (Some "A"%string) false false false ["Cafe Two"%string]);
        (1%Z, mkRow (Some "A"%string) true true false ["Cafe One"%string])].

Definition eligible_first_raw : Series RawServices :=
  [(0%Z, mkRaw None None None);
   (1%Z, mkRaw (Some "Yes"%string) (Some "Yes"%string) (Some "No"%string))].

Definition eligible_first_out : DataFrame :=
  mkDF table_columns
       [(0%Z, mkRow (Some "A"%string) true true false ["Cafe Two"%string]);
        (1%Z, mkRow (Some "A"%string) true true false ["Cafe One"%string])].

(** A restaurant without service data, alone in its city. *)
Definition quiet_city : DataFrame :=
  mkDF table_columns
       [(0%Z, mkRow (Some "A"%string) true true false ["Cafe One"%string]);
        (1%Z, mkRow (Some "B"%string) false false false ["Cafe Two"%string])].

End Examples.

(** ** The loader and the endpoints of server.py

    [load_and_process_data] is modelled from the frame [read_csv] returns:
    the file check and the encoding loop are the input [csv_file]. The
    logging calls are not modelled. The cleaning of the cells that the
    imputation never reads (lines 96-100: [fillna('Unknown')] on Cuisines,
    [to_numeric(errors='coerce').fillna(0)] on the four numeric columns) is
    a parameter of the model. *)

(** [str.lower()] on the characters of a byte string: the ASCII capitals go
    to their small letters. (Python also lowers capitals outside ASCII, to
    letters outside ASCII.) *)
Definition lower_char (a : Ascii.ascii) : Ascii.ascii :=
  let n := Ascii.nat_of_ascii a in
  if (65 <=? n) && (n <=? 90) then Ascii.ascii_of_nat (n + 32) else a.

Fixpoint lower (s : string) : string :=
  match s with
  | EmptyString => EmptyString
  | String a s => String (lower_char a) (lower s)
  end.

(** Lines 108-110, one cell of a text column:
    [col.fillna('No').str.lower() == 'yes']. *)
Definition coerce_service (c : option string) : bool :=
  bool_decide (lower (default "No"%string c) = "yes"%string).

(** How a service column stands when lines 108-110 apply [.str] to it,
    after [fillna('No')]. A column that [read_csv] read as text is accepted,
    and [.str.lower()] lowers every cell. A column of numbers or booleans in
    which [fillna] put at least one 'No' is accepted too, and [.str.lower()]
    gives NaN on every value that is not a string. On a column of numbers or
    booleans that holds no string, [.str] raises AttributeError. *)
Inductive service_column :=
  | TextColumn
  | MixedColumn
  | NonTextColumn.

Definition str_accessor (k : service_column) : result unit :=
  match k with
  | NonTextColumn => Err AttributeError
  | _ => Ok ()
  end.

(** Lines 108-110, one cell of a column that [.str] accepts:
    [NaN == 'yes'] is False. *)
Definition service_flag (k : service_column) (c : option string) : bool :=
  match k with
  | TextColumn => coerce_service c
  | _ => false
  end.

(** A row as [read_csv] returns it: the name and city cells, the three raw
    service cells (the text of the field, [None] for an empty one), and the
    remaining cells. *)
Record CsvRow := mkCsvRow {
  csv_Restaurant_Name : option string;
  csv_City : option string;
  csv_services : RawServices;
  csv_other : list string
}.

Record CsvFrame := mkCsv {
  csv_columns : list string;
  csv_rows : Series CsvRow;
  kind_table_booking : service_column;
  kind_online_delivery : service_column;
  kind_delivering_now : service_column
}.

(** What the file check and the encoding loop of lines 64-86 end with. *)
Inductive csv_file :=
  | Missing
  | Unreadable
  | Readable (csv : CsvFrame).

Definition csv_exists (file : csv_file) : bool :=
  match file with
  | Missing => false
  | _ => true
  end.

(** Access to a column of the raw frame: KeyError when it is absent. *)
Definition csv_require (csv : CsvFrame) (c : string) : result unit :=
  if bool_decide (c ∈ csv_columns csv) then Ok () else Err (KeyError c).

(** Line 91: [df.dropna(subset=['Restaurant Name'])]; the rows kept keep
    their labels. *)
Definition dropna_name (rs : Series CsvRow) : Series CsvRow :=
  filter (λ lr, is_Some (csv_Restaurant_Name lr.2)) rs.

Section Loader.

Variable clean_other : list string → list string.

(** Lines 94-100 and 108-110 on one row. *)
Definition clean_row (csv : CsvFrame) (r : CsvRow) : Row :=
  mkRow (Some (default "Unknown"%string (csv_City r)))
        (service_flag (kind_table_booking csv) (raw_table_booking (csv_services r)))
        (service_flag (kind_online_delivery csv)
                      (raw_online_delivery (csv_services r)))
        (service_flag (kind_delivering_now csv)
                      (raw_delivering_now (csv_services r)))
        (default "Unknown"%string (csv_Restaurant_Name r) :: clean_other (csv_other r)).

(** Lines 91-110: the cleaned table and [original_services]. A KeyError
    carries the first column found absent; the three [.str] accesses come
    last, in the order of lines 108-110. *)
Definition prepare (csv : CsvFrame) : result (DataFrame * Series RawServices) :=
  let* _ := csv_require csv "Restaurant Name" in
  let df := dropna_name (csv_rows csv) in
  let* _ := csv_require csv "City" in
  let* _ := csv_require csv "Cuisines" in
  let* _ := csv_require csv "Aggregate rating" in
  let* _ := csv_require csv "Votes" in
  let* _ := csv_require csv "Average Cost for two" in
  let* _ := csv_require csv "Price range" in
  let* _ := csv_require csv "Has Table booking" in
  let* _ := csv_require csv "Has Online delivery" in
  let* _ := csv_require csv "Is delivering now" in
  let original_services := prod_map id csv_services <$> df in
  let* _ := str_accessor (kind_table_booking csv) in
  let* _ := str_accessor (kind_online_delivery csv) in
  let* _ := str_accessor (kind_delivering_now csv) in
  Ok (mkDF (csv_columns csv) (prod_map id (clean_row csv) <$> df),
      original_services).

(** Lines 91-115: the cleaning followed by the imputation. *)
Definition process (csv : CsvFrame) (st : RandomState) : result DataFrame :=
  let* p := prepare csv in
  imputed_table p.1 p.2 st.

(** [load_and_process_data]: the success flag and the global
    [restaurant_data] after the call. Every exception is caught and leaves
    the global as it was. [st] is numpy's random state when the call is
    made. *)
Definition load_and_process_data (file : csv_file)
    (restaurant_data : option DataFrame) (st : RandomState)
  : bool * option DataFrame :=
  match file with
  | Readable csv =>
      match process csv st with
      | Ok df => (true, Some df)
      | Err _ => (false, restaurant_data)
      end
  | _ => (false, restaurant_data)
  end.

Definition load_data_on_startup (file : csv_file)
    (restaurant_data : option DataFrame) (st : RandomState)
  : bool * option DataFrame :=
  if csv_exists file then load_and_process_data file restaurant_data st
  else (false, restaurant_data).

Definition ensure_data_loaded (file : csv_file)
    (restaurant_data : option DataFrame) (st : RandomState)
  : bool * option DataFrame :=
  match restaurant_data with
  | None =>
      let restaurant_data := (load_data_on_startup file None st).2 in
      match restaurant_data with
      | None => (false, None)
      | Some _ => (true, restaurant_data)
      end
  | Some _ => (true, restaurant_data)
  end.

(** The status dictionary of [reload_data] (without the working
    directory). *)
Record ReloadStatus := mkReloadStatus {
  reload_attempted : bool;
  reload_successful : bool;
  data_loaded : bool;
  csv_file_exists : bool;
  restaurant_count : nat
}.

Definition len (restaurant_data : option DataFrame) : nat :=
  match restaurant_data with
  | Some df => length (rows df)
  | None => 0
  end.

(** [reload_data]: the status, the HTTP code, and the global after the
    call. *)
Definition reload_data (file : csv_file) (restaurant_data : option DataFrame)
    (st : RandomState) : ReloadStatus * nat * option DataFrame :=
  let restaurant_data : option DataFrame := None in
  let '(success, restaurant_data) :=
    load_and_process_data file restaurant_data st in
  let status :=
    mkReloadStatus true success (bool_decide (is_Some restaurant_data))
                   (csv_exists file) (len restaurant_data) in
  (status, if success then 200 else 500, restaurant_data).

End Loader.

(** [get_services_data], lines 365-369, on the filtered rows. *)
Definition services_data (filtered_df : Series Row) : list (string * nat) :=
  [("Table Booking"%string, sum_bool (column Has_Table_booking filtered_df));
   ("Online Delivery"%string, sum_bool (column Has_Online_delivery filtered_df));
   ("Currently Delivering"%string, sum_bool (column Is_delivering_now filtered_df))].

(** Number of cells of a column that satisfy a test: [len(df[test])]. *)
Definition count_where (test : Q → bool) (column : list Q) : nat :=
  length (filter (λ r, test r = true) column).

Definition Qgeb (x y : Q) : bool := Qle_bool y x.

(** The dictionary [rating_ranges] of [get_rating_distribution]
    (server.py) and [create_rating_chart] (app.py), from the column
    'Aggregate rating', which has no NaN after the loader's [fillna(0)].
    The thresholds are exact in float64. *)
Definition rating_ranges (rating : list Q) : list (string * nat) :=
  [("Excellent (4.5+)"%string, count_where (λ r, Qgeb r (9 # 2)) rating);
   ("Very Good (4.0-4.4)"%string,
    count_where (λ r, Qgeb r (4 # 1) && Qltb r (9 # 2)) rating);
   ("Good (3.5-3.9)"%string,
    count_where (λ r, Qgeb r (7 # 2) && Qltb r (4 # 1)) rating);
   ("Average (3.0-3.4)"%string,
    count_where (λ r, Qgeb r (3 # 1) && Qltb r (7 # 2)) rating);
   ("Poor (<3.0)"%string, count_where (λ r, Qltb r (3 # 1)) rating)].

Definition total (d : list (string * nat)) : nat := sum_list d.*2.

(** [Series.unique()]: the distinct values in order of first appearance. *)
Fixpoint unique (l : list string) : list string :=
  match l with
  | [] => []
  | x :: l => x :: filter (λ y, y ≠ x) (unique l)
  end.

(** [get_cities], line 393: [sorted(restaurant_data['City'].unique().tolist())]
    on the City column, which holds no NaN after line 95. Python orders
    strings by code point, [String.le] by character code; on distinct
    values the sorted list does not depend on the sorting algorithm. *)
Definition get_cities (city : list string) : list string :=
  merge_sort String.le (unique city).

(** Python's [a or b] on strings: [a] unless it is empty. *)
Definition str_or (a b : string) : string :=
  match a with
  | EmptyString => b
  | _ => a
  end.

(** The 'Services' cell of the table of app.py (lines 336-339). A
    conditional expression binds weaker than [+] and [or], so the source
    reads: the booking icon if the row has table booking, else ("" + the
    delivery icon) if it has online delivery, else ("" + the green dot) if it
    is delivering now, else ("" or "None"). *)
Definition services_cell (row : Row) : string :=
  if Has_Table_booking row then "📅"%string
  else if Has_Online_delivery row then ("" +:+ "🚚")%string
  else if Is_delivering_now row then ("" +:+ "🟢")%string
  else str_or "" "None".

(** The number of rows that keep their name and have no service data. *)
Definition eligible_count (csv : CsvFrame) : nat :=
  length (filter (λ lr : Z * CsvRow, all_null (csv_services lr.2) = true)
                 (dropna_name (csv_rows csv))).

(** None of the three service columns makes [.str] raise. *)
Definition accepts_str (csv : CsvFrame) : Prop :=
  kind_table_booking csv ≠ NonTextColumn ∧
  kind_online_delivery csv ≠ NonTextColumn ∧
  kind_delivering_now csv ≠ NonTextColumn.

(** The raw frame has the ten columns the loader reads. *)
Definition has_loader_columns (csv : CsvFrame) : Prop :=
  Forall (λ c, c ∈ csv_columns csv)
    ["Restaurant Name"; "City"; "Cuisines"; "Aggregate rating"; "Votes";
     "Average Cost for two"; "Price range"; "Has Table booking";
     "Has Online delivery"; "Is delivering now"]%string.

Module ServerExamples.

Definition csv_columns_all : list string :=
  ["Restaurant Name"; "City"; "Cuisines"; "Aggregate rating"; "Votes";
   "Average Cost for two"; "Price range"; "Has Table booking";
   "Has Online delivery"; "Is delivering now"]%string.

Definition keep_cells : list string → list string := id.

(** A file of two restaurants, both named; the second has no service
    data. *)
Definition good_csv : CsvFrame :=
  mkCsv csv_columns_all
        [(0%Z, mkCsvRow (Some "Cafe One"%string) (Some "A"%string)
                 (mkRaw (Some "Yes"%string) (Some "YES"%string) (Some "No"%string))
                 ["Thai"%string]);
         (1%Z, mkCsvRow (Some "Cafe Two"%string) None
                 (mkRaw None None None) ["Thai"%string])]
        TextColumn TextColumn TextColumn.

(** The same file with the name of the first restaurant missing. *)
Definition nameless_first_csv : CsvFrame :=
  mkCsv csv_columns_all
        [(0%Z, mkCsvRow None (Some "A"%string)
                 (mkRaw (Some "Yes"%string) (Some "YES"%string) (Some "No"%string))
                 ["Thai"%string]);
         (1%Z, mkCsvRow (Some "Cafe Two"%string) None
                 (mkRaw None None None) ["Thai"%string])]
        TextColumn TextColumn TextColumn.

(** A file whose last service column [read_csv] reads as integers. *)
Definition numeric_service_csv : CsvFrame :=
  mkCsv csv_columns_all
        [(0%Z, mkCsvRow (Some "Cafe One"%string) (Some "A"%string)
                 (mkRaw (Some "Yes"%string) (Some "No"%string) (Some "0"%string))
                 ["Thai"%string])]
        TextColumn TextColumn NonTextColumn.

Definition some_ratings : list Q :=
  [(49 # 10)%Q; (9 # 2)%Q; (4 # 1)%Q; (39 # 10)%Q; (3 # 1)%Q; (0 # 1)%Q; (29 # 10)%Q].

End ServerExamples.

(** ** Means and the groupby pass *)

Section Means.

Lemma sum_bool_le l : sum_bool l ≤ length l.
Proof. induction l as [|[] l IH]; simpl; lia. Qed.

Lemma Qsum_b2q l : (Qsum (b2q <$> l) == inject_Z (Z.of_nat (sum_bool l)))%Q.
Proof.
  induction l as [|b l IH]; [reflexivity|].
  cbn [fmap list_fmap Qsum foldr sum_bool]. fold (Qsum (b2q <$> l)).
  rewrite IH, Nat2Z.inj_add, inject_Z_plus.
  destruct b; reflexivity.
Qed.

Lemma ratio_Some s n : n ≠ 0 → ratio s n = Some (Z.of_nat s # Pos.of_nat n)%Q.
Proof. destruct n; [done|reflexivity]. Qed.

Lemma frac_as_div s n :
  n ≠ 0 →
  (Z.of_nat s # Pos.of_nat n == inject_Z (Z.of_nat s) / inject_Z (Z.of_nat n))%Q.
Proof.
  intros Hn. rewrite (Qmake_Qdiv (Z.of_nat s) (Pos.of_nat n)).
  replace (Z.pos (Pos.of_nat n)) with (Z.of_nat n); [reflexivity|].
  destruct n; [done|]. rewrite <- Pos.of_nat_succ. lia.
Qed.

Lemma mean_arithmetic l : prob_eq (mean l) (arithmetic_mean l).
Proof.
  destruct l as [|b l]; [exact I|].
  unfold mean, arithmetic_mean. rewrite ratio_Some by (simpl; lia).
  unfold prob_eq. rewrite frac_as_div by (simpl; lia).
  rewrite Qsum_b2q. reflexivity.
Qed.

Lemma ratio_unit s n : n ≠ 0 → s ≤ n → in_unit_interval (ratio s n).
Proof.
  intros Hn Hs. eexists; split; [by apply ratio_Some|].
  unfold Qle; simpl. split; [lia|].
  destruct n; [done|]. rewrite <- Pos.of_nat_succ. lia.
Qed.

Lemma mean_unit l : l ≠ [] → in_unit_interval (mean l).
Proof.
  intros Hl. apply ratio_unit; [destruct l; simpl; [done|lia]|apply sum_bool_le].
Qed.

End Means.

Section Groupby.

Lemma foldl_acc_add (l : Series Row) : ∀ a,
  foldl acc_add a l.*2 =
  mkAcc (acc_count a + length l)
        (acc_booking a + sum_bool (column Has_Table_booking l))
        (acc_delivery a + sum_bool (column Has_Online_delivery l)).
Proof.
  induction l as [|[k r] l IH]; intros [n sb sd]; simpl.
  - f_equal; lia.
  - rewrite IH. unfold acc_add; simpl. f_equal; lia.
Qed.

Lemma rows_of_city_cons c lr rs :
  rows_of_city c (lr :: rs) =
  if decide (City lr.2 = Some c) then lr :: rows_of_city c rs else rows_of_city c rs.
Proof. unfold rows_of_city. rewrite filter_cons. reflexivity. Qed.

Lemma foldl_group_add_lookup (rs : Series Row) : ∀ (g : gmap string Acc) c,
  foldl group_add g rs !! c =
  match rows_of_city c rs with
  | [] => g !! c
  | f => Some (foldl acc_add (default (mkAcc 0 0 0) (g !! c)) f.*2)
  end.
Proof.
  induction rs as [|lr rs IH]; intros g c; [reflexivity|].
  cbn [foldl]. rewrite IH, rows_of_city_cons.
  unfold group_add. destruct (City lr.2) as [c'|] eqn:Hc.
  - destruct (decide (Some c' = Some c)) as [[= ->]|Hne].
    + rewrite lookup_insert_eq. simpl.
      destruct (rows_of_city c rs); reflexivity.
    + rewrite lookup_insert_ne by congruence. reflexivity.
  - destruct (decide (None = Some c)); [done|reflexivity].
Qed.

Lemma groupby_City_lookup rs c :
  groupby_City rs !! c =
  match rows_of_city c rs with
  | [] => None
  | f => Some (acc_of f)
  end.
Proof.
  unfold groupby_City. rewrite foldl_group_add_lookup, lookup_empty.
  destruct (rows_of_city c rs) as [|lr f] eqn:Hf; [reflexivity|].
  rewrite foldl_acc_add. reflexivity.
Qed.

Lemma city_probabilities_Ok df :
  has_column df "City" = true →
  has_column df "Has Table booking" = true →
  has_column df "Has Online delivery" = true →
  city_probabilities df = Ok (acc_means <$> groupby_City (rows df)).
Proof.
  intros H1 H2 H3. unfold city_probabilities, require_column.
  rewrite H1, H2, H3. reflexivity.
Qed.

Lemma city_probabilities_inv df probs :
  city_probabilities df = Ok probs →
  has_column df "City" = true ∧
  has_column df "Has Table booking" = true ∧
  has_column df "Has Online delivery" = true ∧
  probs = acc_means <$> groupby_City (rows df).
Proof.
  unfold city_probabilities, require_column.
  destruct (has_column df "City"); [|done].
  destruct (has_column df "Has Table booking"); [|done].
  destruct (has_column df "Has Online delivery"); [|done].
  simpl. intros [= <-]. done.
Qed.

Lemma city_probabilities_lookup df probs c :
  city_probabilities df = Ok probs →
  probs !! c =
  match rows_of_city c (rows df) with
  | [] => None
  | f => Some (mean (column Has_Table_booking f), mean (column Has_Online_delivery f))
  end.
Proof.
  intros (_ & _ & _ & ->)%city_probabilities_inv.
  rewrite lookup_fmap, groupby_City_lookup.
  destruct (rows_of_city c (rows df)) as [|lr f]; [reflexivity|].
  simpl. unfold acc_means, mean, column. simpl.
  rewrite !length_fmap. reflexivity.
Qed.

End Groupby.

(** ** Boolean indexing *)

Section Selection.

Lemma series_get_fmap {A B} (f : A → B) (s : Series A) l :
  series_get (prod_map id f <$> s) l = f <$> series_get s l.
Proof.
  induction s as [|[k a] s IH]; [reflexivity|]. simpl.
  case_bool_decide; [reflexivity|exact IH].
Qed.

Lemma series_get_None {A} (s : Series A) l :
  series_get s l = None ↔ l ∉ index s.
Proof.
  unfold index. induction s as [|[k a] s IH]; simpl.
  - split; [intros _; apply not_elem_of_nil|done].
  - rewrite not_elem_of_cons. case_bool_decide as Hk.
    + split; [done|intros [? _]; congruence].
    + rewrite IH. split; [intros ?; split; [congruence|done]|by intros [_ ?]].
Qed.

Lemma series_get_is_Some {A} (s : Series A) l :
  is_Some (series_get s l) ↔ l ∈ index s.
Proof.
  rewrite <- not_eq_None_Some, series_get_None.
  split; [apply dec_stable|auto].
Qed.

Lemma series_get_elem_of {A} (s : Series A) l a :
  series_get s l = Some a → (l, a) ∈ s.
Proof.
  induction s as [|[k b] s IH]; simpl; [done|].
  case_bool_decide; subst.
  - intros [= ->]. left.
  - intros H'. right. auto.
Qed.

Lemma series_get_NoDup {A} (s : Series A) l a :
  NoDup (index s) → (l, a) ∈ s → series_get s l = Some a.
Proof.
  unfold index. induction s as [|[k b] s IH]; simpl.
  - intros _ H; by apply elem_of_nil in H.
  - rewrite NoDup_cons. intros [Hk Hs] [[= -> ->]|Hin]%elem_of_cons.
    + by rewrite bool_decide_eq_true_2.
    + rewrite bool_decide_eq_false_2; [auto|].
      intros ->. apply Hk. apply list_elem_of_fmap. by exists (l, a).
Qed.

Lemma series_positional {A} (s : Series A) (d : A) :
  NoDup (index s) → s.*2 = (λ l, default d (series_get s l)) <$> index s.
Proof.
  intros Hnd. unfold index. rewrite <- list_fmap_compose.
  apply Forall_fmap_ext_1, Forall_forall. intros [l a] Hin. simpl.
  by rewrite (series_get_NoDup s l a).
Qed.

Lemma reindex_bool_Ok key idx :
  (∀ l, l ∈ idx → l ∈ index key) →
  reindex_bool key idx = Ok ((λ l, default false (series_get key l)) <$> idx).
Proof.
  induction idx as [|l idx IH]; intros Hall; [reflexivity|]. simpl.
  destruct (series_get key l) as [b|] eqn:Hl.
  - rewrite IH; [reflexivity|]. intros k Hk. apply Hall. by right.
  - apply series_get_None in Hl. destruct Hl. apply Hall. left.
Qed.

Lemma reindex_bool_Err key idx l :
  l ∈ idx → l ∉ index key → reindex_bool key idx = Err IndexingError.
Proof.
  intros Hin Hl. induction idx as [|k idx IH]; [by apply elem_of_nil in Hin|].
  simpl. destruct (series_get key k) as [b|] eqn:Hk; [|reflexivity].
  apply elem_of_cons in Hin as [->|Hin].
  - apply series_get_None in Hl. congruence.
  - rewrite IH by done. reflexivity.
Qed.

Lemma check_bool_indexer_reindex idx key :
  NoDup idx → check_bool_indexer idx key = reindex_bool key idx.
Proof.
  intros Hnd. unfold check_bool_indexer. case_bool_decide as Heq; [|reflexivity].
  subst idx. rewrite reindex_bool_Ok by auto.
  by rewrite <- series_positional.
Qed.

Lemma take_true_fmap {A} (f : A → bool) (l : list A) :
  take_true (f <$> l) l = filter (λ x, f x = true) l.
Proof.
  induction l as [|x l IH]; [reflexivity|]. csimpl. rewrite filter_cons, IH.
  destruct (f x); simpl; [|reflexivity].
  destruct (decide (true = true)); done.
Qed.

Lemma take_true_nil {A} (bs : list bool) : take_true bs (@nil A) = [].
Proof. by destruct bs. Qed.

Lemma eligible_mask mask l :
  default false (series_get (no_services_mask mask) l) = eligible mask l.
Proof. unfold no_services_mask, eligible. by rewrite series_get_fmap. Qed.

Lemma index_no_services_mask mask : index (no_services_mask mask) = index mask.
Proof.
  unfold no_services_mask, index. rewrite <- list_fmap_compose.
  apply list_fmap_ext. by intros ? [] _.
Qed.

(** With unique labels in the table, selection keeps exactly the rows
    whose label is eligible in the mask. *)
Lemma selected_Ok df mask :
  NoDup (index (rows df)) →
  (∀ l, l ∈ index (rows df) → l ∈ index mask) →
  selected df mask = Ok (filter (λ lr, eligible mask lr.1 = true) (rows df)).
Proof.
  intros Hnd Hall. unfold selected, getitem_bool.
  rewrite check_bool_indexer_reindex by done.
  rewrite reindex_bool_Ok by (by rewrite index_no_services_mask).
  simpl. unfold index. rewrite <- list_fmap_compose.
  rewrite <- take_true_fmap. do 2 f_equal.
  apply list_fmap_ext. intros ? lr _. simpl. apply eligible_mask.
Qed.

Lemma selected_Err df mask l :
  l ∈ index (rows df) → l ∉ index mask → selected df mask = Err IndexingError.
Proof.
  intros Hin Hl. unfold selected, getitem_bool, check_bool_indexer.
  rewrite index_no_services_mask.
  rewrite bool_decide_eq_false_2 by (intros Heq; apply Hl; by rewrite Heq).
  rewrite (reindex_bool_Err _ _ l); [reflexivity|done|].
  by rewrite index_no_services_mask.
Qed.

End Selection.

(** ** Merge, sampling and write-back *)

Section Pipeline.

Lemma merge_row_booking probs r :
  prob_booking (merge_row probs r) = city_prob_booking probs r.
Proof.
  unfold merge_row, city_prob_booking.
  by destruct (lookup_city probs (City r)) as [[]|].
Qed.

Lemma merge_row_delivery probs r :
  prob_delivery (merge_row probs r) = city_prob_delivery probs r.
Proof.
  unfold merge_row, city_prob_delivery.
  by destruct (lookup_city probs (City r)) as [[]|].
Qed.

Lemma m_row_merge_row probs r : m_row (merge_row probs r) = r.
Proof. unfold merge_row. by destruct (lookup_city probs (City r)) as [[]|]. Qed.

Lemma restaurants_to_impute_Ok df mask probs sel :
  city_probabilities df = Ok probs →
  selected df mask = Ok sel →
  restaurants_to_impute df mask = Ok (imap (merged_row df probs) sel).
Proof.
  intros Hp Hs. unfold restaurants_to_impute. rewrite Hp, Hs. simpl.
  f_equal. unfold merge_left. rewrite !fmap_imap. apply imap_ext.
  intros j [l r] _. unfold merged_row, resolved_booking, resolved_delivery; simpl.
  unfold fillna_booking, fillna_delivery; simpl.
  by rewrite m_row_merge_row, merge_row_booking, merge_row_delivery.
Qed.

Lemma restaurants_to_impute_inv df mask t :
  restaurants_to_impute df mask = Ok t →
  ∃ probs sel, city_probabilities df = Ok probs ∧ selected df mask = Ok sel ∧
               t = imap (merged_row df probs) sel.
Proof.
  intros Ht. destruct (city_probabilities df) as [probs|e] eqn:Hp;
    [|by unfold restaurants_to_impute in Ht; rewrite Hp in Ht].
  destruct (selected df mask) as [sel|e] eqn:Hs;
    [|by unfold restaurants_to_impute in Ht; rewrite Hp, Hs in Ht].
  exists probs, sel. rewrite (restaurants_to_impute_Ok _ _ _ _ Hp Hs) in Ht.
  by injection Ht as <-.
Qed.

Lemma index_merged df probs sel :
  index (imap (merged_row df probs) sel) = RangeIndex (length sel).
Proof.
  unfold index, RangeIndex. rewrite fmap_imap, <- imap_seq_0.
  by apply imap_ext.
Qed.

Lemma NoDup_RangeIndex k : NoDup (RangeIndex k).
Proof.
  unfold RangeIndex. apply NoDup_fmap_2; [apply Nat2Z.inj'|apply NoDup_seq].
Qed.

Lemma elem_of_RangeIndex k l : l ∈ RangeIndex k ↔ (0 ≤ l < Z.of_nat k)%Z.
Proof.
  unfold RangeIndex. rewrite list_elem_of_fmap. split.
  - intros (j & -> & Hj%elem_of_seq). lia.
  - intros Hl. exists (Z.to_nat l). rewrite elem_of_seq. lia.
Qed.

Lemma lt_series_lookup ds s j :
  lt_series ds s !! j =
  match ds !! j, s !! j with
  | Some d, Some lp => Some (lp.1, lt_prob d lp.2)
  | _, _ => None
  end.
Proof.
  revert s j. induction ds as [|d ds IH]; intros [|[l p] s] [|j]; simpl;
    first [done | apply IH | by destruct (ds !! j)].
Qed.

Lemma index_lt_series ds s :
  length s ≤ length ds → index (lt_series ds s) = index s.
Proof.
  unfold index. revert s. induction ds as [|d ds IH]; intros [|[l p] s]; simpl;
    try done; try lia.
  intros Hlen. f_equal. apply IH. lia.
Qed.

Lemma sample_eq t st :
  sample t st =
  (lt_series (st <$> seq 0 (length t)) (series_of prob_booking t),
   lt_series ((λ i, st (length t + i)) <$> seq 0 (length t)) (series_of prob_delivery t),
   λ i, st (length t + (length t + i))).
Proof. reflexivity. Qed.

Lemma index_series_of {A} (f : Merged → A) t : index (series_of f t) = index t.
Proof.
  unfold series_of, index. rewrite <- list_fmap_compose.
  apply list_fmap_ext. by intros ? [] _.
Qed.

Lemma index_sample t st ib idl st' :
  sample t st = (ib, idl, st') → index ib = index t ∧ index idl = index t.
Proof.
  rewrite sample_eq. intros [= <- <- _].
  rewrite !index_lt_series, !index_series_of; [done|..];
    unfold series_of; by rewrite !length_fmap, length_seq.
Qed.

Lemma index_loc_write set v rs : index (loc_write set v <$> rs) = index rs.
Proof.
  unfold index. rewrite <- list_fmap_compose. apply list_fmap_ext.
  intros ? [l r] _. unfold loc_write; simpl. by destruct (series_get v l).
Qed.

Lemma loc_set_Ok set v rs :
  (∀ l, l ∈ index v → l ∈ index rs) →
  loc_set set v rs = Ok (loc_write set v <$> rs).
Proof.
  intros Hall. unfold loc_set.
  destruct (list_find _ _) as [[i l]|] eqn:Hf; [|reflexivity].
  apply list_find_Some in Hf as (Hi & Hl & _).
  destruct Hl. apply Hall. by eapply list_elem_of_lookup_2.
Qed.

Lemma loc_set_inv set v rs rs' :
  loc_set set v rs = Ok rs' →
  (∀ l, l ∈ index v → l ∈ index rs) ∧ rs' = loc_write set v <$> rs.
Proof.
  unfold loc_set. destruct (list_find _ _) eqn:Hf; [done|].
  intros [= <-]. split; [|done].
  apply list_find_None in Hf. rewrite Forall_forall in Hf.
  intros l Hl. by apply dec_stable, Hf.
Qed.

Lemma loc_set_KeyError set v rs l :
  l ∈ index v → l ∉ index rs → ∃ msg, loc_set set v rs = Err (KeyError msg).
Proof.
  intros Hl Hn. unfold loc_set.
  destruct (list_find _ _) eqn:Hf; [by eexists|].
  apply list_find_None in Hf. rewrite Forall_forall in Hf.
  by destruct (Hf l Hl).
Qed.

(** What a successful run computed, step by step. *)
Lemma impute_inv df mask st out st' :
  impute_missing_services df mask st = Ok (out, st') →
  ∃ t ib idl,
    restaurants_to_impute df mask = Ok t ∧
    sample t st = (ib, idl, st') ∧
    (∀ l, l ∈ index t → l ∈ index (rows df)) ∧
    out = mkDF (columns df)
               (loc_write set_delivery idl <$> (loc_write set_booking ib <$> rows df)).
Proof.
  unfold impute_missing_services.
  destruct (restaurants_to_impute df mask) as [t|] eqn:Ht; cbn [rbind]; [|done].
  destruct (sample t st) as [[ib idl] st''] eqn:Hs.
  destruct (loc_set set_booking ib (rows df)) as [rs|] eqn:H1; cbn [rbind]; [|done].
  destruct (loc_set set_delivery idl rs) as [rs'|] eqn:H2; cbn [rbind]; [|done].
  intros [= <- <-].
  apply loc_set_inv in H1 as [Hall ->]. apply loc_set_inv in H2 as [_ ->].
  exists t, ib, idl. split_and!; try done.
  intros l Hl. apply Hall. by rewrite (proj1 (index_sample _ _ _ _ _ Hs)).
Qed.

Lemma impute_Ok df mask st t :
  restaurants_to_impute df mask = Ok t →
  (∀ l, l ∈ index t → l ∈ index (rows df)) →
  impute_missing_services df mask st =
  Ok (mkDF (columns df)
           (loc_write set_delivery (sample t st).1.2 <$>
              (loc_write set_booking (sample t st).1.1 <$> rows df)),
      (sample t st).2).
Proof.
  intros Ht Hall. unfold impute_missing_services. rewrite Ht. cbn [rbind].
  destruct (sample t st) as [[ib idl] st'] eqn:Hs.
  destruct (index_sample _ _ _ _ _ Hs) as [Hib Hidl]. cbn [fst snd].
  rewrite loc_set_Ok by (intros l; rewrite Hib; apply Hall). cbn [rbind].
  rewrite loc_set_Ok by (intros l; rewrite index_loc_write, Hidl; apply Hall).
  reflexivity.
Qed.

End Pipeline.

(** ** Properties of the imputation pass *)

Lemma imputed_table_inv df mask st out :
  imputed_table df mask st = Ok out →
  ∃ st', impute_missing_services df mask st = Ok (out, st').
Proof.
  unfold imputed_table.
  destruct (impute_missing_services df mask st) as [[o st']|]; [|done].
  intros [= <-]. by exists st'.
Qed.

Lemma loc_write_frame set v lr :
  (∀ b r, City (set b r) = City r) →
  (∀ b r, Is_delivering_now (set b r) = Is_delivering_now r) →
  (∀ b r, other_columns (set b r) = other_columns r) →
  (loc_write set v lr).1 = lr.1 ∧
  City (loc_write set v lr).2 = City lr.2 ∧
  Is_delivering_now (loc_write set v lr).2 = Is_delivering_now lr.2 ∧
  other_columns (loc_write set v lr).2 = other_columns lr.2.
Proof.
  intros H1 H2 H3. unfold loc_write. destruct (series_get v lr.1); simpl; auto.
Qed.

(** C1. Claimed: imputed values are written only at the indices of eligible
    rows, so a row with a present original service field keeps both service
    attributes. On the two-row table below the only eligible row is the one
    labelled 1, but the labels handed to [df.loc] are those of the merged
    frame, here [0]: with high draws the run overwrites the row labelled 0,
    whose services were listed, and turns both of its flags from true to
    false; with low draws the value true sampled for the eligible row never
    reaches it. *)
Theorem impute_overwrites_listed_row :
  eligible Examples.two_rows_raw 0 = false ∧
  eligible Examples.two_rows_raw 1 = true ∧
  selected Examples.two_rows Examples.two_rows_raw
    = Ok [(1%Z, mkRow (Some "A"%string) false false false ["Cafe Two"%string])] ∧
  write_index Examples.two_rows Examples.two_rows_raw = Ok [0%Z] ∧
  imputed_table Examples.two_rows Examples.two_rows_raw Examples.high_draws
    = Ok Examples.two_rows_out ∧
  (Has_Table_booking <$> series_get (rows Examples.two_rows) 0 = Some true ∧
   Has_Table_booking <$> series_get (rows Examples.two_rows_out) 0 = Some false) ∧
  (Has_Online_delivery <$> series_get (rows Examples.two_rows) 0 = Some true ∧
   Has_Online_delivery <$> series_get (rows Examples.two_rows_out) 0 = Some false) ∧
  imputed_table Examples.two_rows Examples.two_rows_raw Examples.low_draws
    = Ok Examples.two_rows.
Proof. vm_compute. repeat split; reflexivity. Qed.

(** The same defect on a table whose labels do not start at 0: the label 0
    of the merged frame is not a label of the table, and the assignment
    raises. *)
Lemma impute_raises_on_index_gap :
  index (rows Examples.gap_rows) = index Examples.gap_rows_raw ∧
  write_index Examples.gap_rows Examples.gap_rows_raw = Ok [0%Z] ∧
  imputed_table Examples.gap_rows Examples.gap_rows_raw Examples.high_draws
    = Err (KeyError "not in index").
Proof. vm_compute. repeat split; reflexivity. Qed.

(** C2. The table returned by [impute_missing_services] has the columns, the
    row count and the index of the input table, and every row keeps its
    city, its [is_delivering_now] flag and all its other cells: only the two
    service booleans can differ. *)
Theorem impute_preserves_rows_and_other_columns df mask st out :
  imputed_table df mask st = Ok out →
  columns out = columns df ∧
  length (rows out) = length (rows df) ∧
  index (rows out) = index (rows df) ∧
  Forall2 (λ a b : Z * Row,
             City b.2 = City a.2 ∧
             Is_delivering_now b.2 = Is_delivering_now a.2 ∧
             other_columns b.2 = other_columns a.2)
          (rows df) (rows out).
Proof.
  intros [st' Hrun]%imputed_table_inv.
  apply impute_inv in Hrun as (t & ib & idl & _ & _ & _ & ->). simpl.
  split_and!; [done|by rewrite !length_fmap|by rewrite !index_loc_write|].
  rewrite <- list_fmap_compose. apply Forall2_fmap_r, Forall_Forall2_diag, Forall_forall.
  intros lr _. unfold compose.
  destruct (loc_write_frame set_booking ib lr) as (_ & E1 & E2 & E3); [done..|].
  destruct (loc_write_frame set_delivery idl (loc_write set_booking ib lr))
    as (_ & F1 & F2 & F3); [done..|].
  by rewrite F1, F2, F3.
Qed.

Lemma impute_preserves_rows_and_other_columns_witness :
  imputed_table Examples.two_rows Examples.two_rows_raw Examples.high_draws
    = Ok Examples.two_rows_out ∧
  length (rows Examples.two_rows_out) = length (rows Examples.two_rows).
Proof.
  split; [vm_compute; reflexivity|].
  apply (impute_preserves_rows_and_other_columns
           Examples.two_rows Examples.two_rows_raw Examples.high_draws).
  vm_compute; reflexivity.
Defined.

Lemma all_null_true raw :
  all_null raw = true ↔
  raw_table_booking raw = None ∧ raw_online_delivery raw = None ∧
  raw_delivering_now raw = None.
Proof.
  unfold all_null, isnull.
  destruct (raw_table_booking raw), (raw_online_delivery raw),
    (raw_delivering_now raw); simpl; intuition congruence.
Qed.

Lemma take_true_zip (rs : Series Row) : ∀ mask : Series RawServices,
  length rs = length mask →
  take_true (no_services_mask mask).*2 rs =
  (filter (λ p : (Z * Row) * (Z * RawServices), all_null p.2.2 = true) (zip rs mask)).*1.
Proof.
  induction rs as [|lr rs IH]; intros [|[l raw] mask] Hlen; try done.
  injection Hlen as Hlen. cbn [zip zip_with]. rewrite filter_cons.
  cbn [no_services_mask fmap list_fmap prod_map snd take_true].
  specialize (IH mask Hlen). unfold no_services_mask in IH.
  destruct (all_null raw) eqn:Hraw; simpl.
  - destruct (decide (true = true)); [|done]. f_equal. apply IH.
  - destruct (decide (false = true)); [done|]. apply IH.
Qed.

(** C3. With the mask on the table's own row labels, the selection of
    lines 28-30 succeeds and keeps the rows at exactly the positions where
    the mask has all three raw service cells absent; with unique labels, a
    row of the table is selected if and only if the three raw cells recorded
    under its label are all absent, so a row with one present raw value is
    not selected. *)
Theorem eligible_iff_all_three_absent df mask :
  index (rows df) = index mask →
  ∃ sel, selected df mask = Ok sel ∧
    sel = (filter (λ p : (Z * Row) * (Z * RawServices), all_null p.2.2 = true)
                  (zip (rows df) mask)).*1 ∧
    (NoDup (index mask) →
     ∀ l r raw, (l, r) ∈ rows df → (l, raw) ∈ mask →
       ((l, r) ∈ sel ↔
        raw_table_booking raw = None ∧ raw_online_delivery raw = None ∧
        raw_delivering_now raw = None)).
Proof.
  intros Hidx. eexists. split; [|split; [reflexivity|]].
  { unfold selected, getitem_bool, check_bool_indexer.
    rewrite index_no_services_mask, bool_decide_eq_true_2 by done.
    cbn [rbind]. f_equal. apply take_true_zip.
    unfold index in Hidx. by rewrite <- (length_fmap fst), Hidx, length_fmap. }
  intros Hnd l r raw Hr Hraw.
  assert (Hsel : selected df mask =
                 Ok (filter (λ lr, eligible mask lr.1 = true) (rows df))).
  { apply selected_Ok; [by rewrite Hidx|]. intros k. by rewrite Hidx. }
  assert (Hsel' : selected df mask =
                  Ok (filter (λ p : (Z * Row) * (Z * RawServices),
                                all_null p.2.2 = true) (zip (rows df) mask)).*1).
  { unfold selected, getitem_bool, check_bool_indexer.
    rewrite index_no_services_mask, bool_decide_eq_true_2 by done.
    cbn [rbind]. f_equal. apply take_true_zip.
    unfold index in Hidx. by rewrite <- (length_fmap fst), Hidx, length_fmap. }
  rewrite Hsel in Hsel'. injection Hsel' as <-.
  rewrite list_elem_of_filter. simpl.
  unfold eligible. rewrite (series_get_NoDup mask l raw Hnd Hraw). simpl.
  rewrite all_null_true. tauto.
Qed.

Lemma eligible_iff_all_three_absent_witness :
  ∃ sel, selected Examples.two_rows Examples.two_rows_raw = Ok sel ∧
    sel = [(1%Z, mkRow (Some "A"%string) false false false ["Cafe Two"%string])].
Proof.
  destruct (eligible_iff_all_three_absent Examples.two_rows Examples.two_rows_raw)
    as (sel & Hs & -> & _); [reflexivity|].
  eexists. split; [exact Hs|]. vm_compute. reflexivity.
Defined.

(** C4. For a table that has the grouped and averaged columns, the
    probability pair stored for a city is the arithmetic mean of the current
    boolean columns over all rows of that city (a city without rows has no
    entry), and each global probability is the arithmetic mean of its column
    over the whole table. *)
Theorem probabilities_are_column_means df :
  has_column df "City" = true →
  has_column df "Has Table booking" = true →
  has_column df "Has Online delivery" = true →
  ∃ probs, city_probabilities df = Ok probs ∧
    (∀ c, rows_of_city c (rows df) = [] → probs !! c = None) ∧
    (∀ c, rows_of_city c (rows df) ≠ [] →
       ∃ pb pd, probs !! c = Some (pb, pd) ∧
         prob_eq pb (arithmetic_mean (column Has_Table_booking (rows_of_city c (rows df)))) ∧
         prob_eq pd (arithmetic_mean (column Has_Online_delivery (rows_of_city c (rows df))))) ∧
    prob_eq (global_prob_booking df) (arithmetic_mean (column Has_Table_booking (rows df))) ∧
    prob_eq (global_prob_delivery df) (arithmetic_mean (column Has_Online_delivery (rows df))).
Proof.
  intros H1 H2 H3. eexists. split; [by apply city_probabilities_Ok|].
  pose proof (city_probabilities_Ok df H1 H2 H3) as Hp.
  split_and!.
  - intros c Hc. rewrite (city_probabilities_lookup _ _ c Hp). by rewrite Hc.
  - intros c Hc. rewrite (city_probabilities_lookup _ _ c Hp).
    destruct (rows_of_city c (rows df)) as [|lr f] eqn:Hf; [done|].
    eexists _, _. split; [reflexivity|]. split; apply mean_arithmetic.
  - apply mean_arithmetic.
  - apply mean_arithmetic.
Qed.

Lemma probabilities_are_column_means_witness :
  ∃ probs, city_probabilities Examples.two_rows = Ok probs ∧
    probs !! "A"%string = Some (Some (1 # 2)%Q, Some (1 # 2)%Q).
Proof.
  destruct (probabilities_are_column_means Examples.two_rows)
    as (probs & Hp & _); [reflexivity..|].
  exists probs. split; [exact Hp|].
  vm_compute in Hp. injection Hp as <-. vm_compute. reflexivity.
Defined.

Lemma seq_fmap_lookup {A} (f : nat → A) k j :
  j < k → (f <$> seq 0 k) !! j = Some (f j).
Proof. intros Hj. rewrite list_lookup_fmap, lookup_seq_lt by done. reflexivity. Qed.

Lemma sample_lookup df probs sel st j l r :
  sel !! j = Some (l, r) →
  (sample (imap (merged_row df probs) sel) st).1.1 !! j
    = Some (Z.of_nat j, lt_prob (st j) (resolved_booking df probs r)) ∧
  (sample (imap (merged_row df probs) sel) st).1.2 !! j
    = Some (Z.of_nat j, lt_prob (st (length sel + j)) (resolved_delivery df probs r)).
Proof.
  intros Hj. pose proof (lookup_lt_Some _ _ _ Hj) as Hlt.
  rewrite sample_eq, length_imap. cbn [fst snd].
  rewrite !lt_series_lookup, !seq_fmap_lookup by done.
  unfold series_of. rewrite !list_lookup_fmap, list_lookup_imap, Hj. done.
Qed.



Lemma imputed_table_eq df mask st :
  imputed_table df mask st =
  let* t := restaurants_to_impute df mask in
  let* rs := loc_set set_booking (sample t st).1.1 (rows df) in
  let* rs := loc_set set_delivery (sample t st).1.2 rs in
  Ok (mkDF (columns df) rs).
Proof.
  unfold imputed_table, impute_missing_services.
  destruct (restaurants_to_impute df mask) as [t|]; cbn [rbind]; [|done].
  destruct (sample t st) as [[ib idl] st']. cbn [fst snd].
  destruct (loc_set set_booking ib (rows df)) as [rs|]; cbn [rbind]; [|done].
  by destruct (loc_set set_delivery idl rs).
Qed.

Lemma sample_ext t st st2 :
  (∀ i, i < 2 * length t → st i = st2 i) →
  (sample t st).1 = (sample t st2).1.
Proof.
  intros Hst. rewrite !sample_eq. cbn [fst]. f_equal; f_equal.
  - apply list_fmap_ext. intros i x [-> Hx]%lookup_seq. apply Hst. lia.
  - apply list_fmap_ext. intros i x [-> Hx]%lookup_seq. apply Hst. lia.
Qed.

(** The two sampled Series of lines 44-45. For the [j]-th selected row the
    sampled booking value is (draw [j] < the row's resolved booking
    probability) and the sampled delivery value is (draw [k + j] < its
    resolved delivery probability), [k] being the number of selected rows,
    so each row and attribute has a draw of its own; and two runs on the
    same input whose draw sequences agree on the [2 k] draws consumed
    return the same result. *)
Lemma sampled_value_is_draw_lt_probability df mask st probs sel :
  city_probabilities df = Ok probs →
  selected df mask = Ok sel →
  ∃ t, restaurants_to_impute df mask = Ok t ∧ length t = length sel ∧
    (∀ j l r, sel !! j = Some (l, r) →
       (sample t st).1.1 !! j
         = Some (Z.of_nat j, lt_prob (st j) (resolved_booking df probs r)) ∧
       (sample t st).1.2 !! j
         = Some (Z.of_nat j,
                 lt_prob (st (length sel + j)) (resolved_delivery df probs r))) ∧
    (∀ st2, (∀ i, i < 2 * length sel → st i = st2 i) →
       imputed_table df mask st = imputed_table df mask st2).
Proof.
  intros Hp Hs. eexists. split; [by apply restaurants_to_impute_Ok|].
  split; [apply length_imap|]. split.
  - intros j l r Hj. by apply (sample_lookup df probs sel st j l r).
  - intros st2 Hst. rewrite !imputed_table_eq.
    rewrite (restaurants_to_impute_Ok _ _ _ _ Hp Hs). cbn [rbind].
    rewrite (sample_ext _ st st2); [reflexivity|]. by rewrite length_imap.
Qed.

Lemma sampled_value_is_draw_lt_probability_witness :
  ∃ t, restaurants_to_impute Examples.two_rows Examples.two_rows_raw = Ok t ∧
    (sample t Examples.high_draws).1.1 !! 0 = Some (0%Z, false) ∧
    (sample t Examples.low_draws).1.1 !! 0 = Some (0%Z, true).
Proof.
  destruct (sampled_value_is_draw_lt_probability
              Examples.two_rows Examples.two_rows_raw Examples.high_draws
              (acc_means <$> groupby_City (rows Examples.two_rows))
              [(1%Z, mkRow (Some "A"%string) false false false ["Cafe Two"%string])])
    as (t & Ht & _ & _ & _); [vm_compute; reflexivity..|].
  exists t. split; [exact Ht|].
  vm_compute in Ht. injection Ht as <-. split; vm_compute; reflexivity.
Defined.

(** C6. Claimed: for every eligible row the imputed boolean of each service
    attribute equals (draw < the row's resolved probability). On the two-row
    table the only eligible row is the one labelled 1; with every draw 0.1
    its resolved probabilities are 1/2 and 1/2, so both comparisons are
    true and both sampled values are true, yet the returned table holds
    false for both attributes of that row: the sampled values were assigned
    at label 0, the label the merge gave the row, and the run returns the
    table it was given. *)
Theorem sampled_value_misses_eligible_row :
  selected Examples.two_rows Examples.two_rows_raw
    = Ok [(1%Z, mkRow (Some "A"%string) false false false ["Cafe Two"%string])] ∧
  resolved_booking Examples.two_rows
    (acc_means <$> groupby_City (rows Examples.two_rows))
    (mkRow (Some "A"%string) false false false ["Cafe Two"%string])
    = Some (1 # 2)%Q ∧
  resolved_delivery Examples.two_rows
    (acc_means <$> groupby_City (rows Examples.two_rows))
    (mkRow (Some "A"%string) false false false ["Cafe Two"%string])
    = Some (1 # 2)%Q ∧
  lt_prob (Examples.low_draws 0) (Some (1 # 2)%Q) = true ∧
  lt_prob (Examples.low_draws 1) (Some (1 # 2)%Q) = true ∧
  (∃ t, restaurants_to_impute Examples.two_rows Examples.two_rows_raw = Ok t ∧
        (sample t Examples.low_draws).1.1 = [(0%Z, true)] ∧
        (sample t Examples.low_draws).1.2 = [(0%Z, true)]) ∧
  imputed_table Examples.two_rows Examples.two_rows_raw Examples.low_draws
    = Ok Examples.two_rows ∧
  series_get (rows Examples.two_rows) 1
    = Some (mkRow (Some "A"%string) false false false ["Cafe Two"%string]).
Proof.
  split_and!; try (vm_compute; reflexivity).
  eexists. split_and!; vm_compute; reflexivity.
Qed.

(** C7, as claimed, fails on the empty table: its global probabilities are
    the mean of no value, which is undefined and so not a number of the
    unit interval. *)
Lemma empty_table_global_probability_undefined :
  city_probabilities Examples.empty_table = Ok ∅ ∧
  global_prob_booking Examples.empty_table = None ∧
  global_prob_delivery Examples.empty_table = None ∧
  ¬ in_unit_interval (global_prob_booking Examples.empty_table) ∧
  ¬ in_unit_interval (global_prob_delivery Examples.empty_table).
Proof.
  split_and!; try reflexivity; by intros (q & [=] & _).
Qed.

(** C7, amended. Every per-city probability lies in [0, 1], and so does each
    global probability of a table that has at least one row. *)
Theorem probabilities_in_unit_interval df probs :
  city_probabilities df = Ok probs →
  (∀ c pb pd, probs !! c = Some (pb, pd) →
     in_unit_interval pb ∧ in_unit_interval pd) ∧
  (rows df ≠ [] →
     in_unit_interval (global_prob_booking df) ∧
     in_unit_interval (global_prob_delivery df)).
Proof.
  intros Hp. split.
  - intros c pb pd. rewrite (city_probabilities_lookup _ _ c Hp).
    destruct (rows_of_city c (rows df)) as [|lr f]; [done|].
    intros [= <- <-]. split; by apply mean_unit.
  - intros Hne. unfold global_prob_booking, global_prob_delivery, column.
    split; apply mean_unit; by destruct (rows df).
Qed.

Lemma probabilities_in_unit_interval_witness :
  in_unit_interval (global_prob_booking Examples.two_rows) ∧
  in_unit_interval (global_prob_delivery Examples.two_rows).
Proof.
  apply (probabilities_in_unit_interval Examples.two_rows
           (acc_means <$> groupby_City (rows Examples.two_rows))).
  - vm_compute; reflexivity.
  - discriminate.
Defined.

Lemma take_true_all_false {A} (bs : list bool) (l : list A) :
  Forall (λ b, b = false) bs → take_true bs l = [].
Proof.
  intros Hbs. revert l. induction Hbs as [|b bs -> _ IH]; intros [|x l]; simpl; auto.
Qed.

Lemma loc_write_nil set lr : loc_write set [] lr = lr.
Proof. reflexivity. Qed.

Lemma imputed_table_nothing_selected df mask st :
  has_column df "City" = true →
  has_column df "Has Table booking" = true →
  has_column df "Has Online delivery" = true →
  selected df mask = Ok [] →
  imputed_table df mask st = Ok df.
Proof.
  intros H1 H2 H3 Hs. rewrite imputed_table_eq.
  rewrite (restaurants_to_impute_Ok _ _ _ _ (city_probabilities_Ok df H1 H2 H3) Hs).
  cbn. unfold loc_set. cbn.
  rewrite <- list_fmap_compose, (list_fmap_ext _ id), list_fmap_id; [by destruct df|].
  by intros ? [].
Qed.

Lemma selected_empty cs mask : selected (mkDF cs []) mask = Ok [].
Proof.
  unfold selected, getitem_bool, check_bool_indexer. cbn.
  case_bool_decide; cbn; by rewrite ?take_true_nil.
Qed.

(** C8. When the mask is on the table's own row labels and none of its rows
    has all three raw service cells absent, the run returns the input table
    itself; and the empty table is returned as it is, whatever the mask. *)
Theorem no_eligible_rows_returns_input :
  (∀ df mask st,
     has_column df "City" = true →
     has_column df "Has Table booking" = true →
     has_column df "Has Online delivery" = true →
     index (rows df) = index mask →
     (∀ l raw, (l, raw) ∈ mask →
        ¬ (raw_table_booking raw = None ∧ raw_online_delivery raw = None ∧
           raw_delivering_now raw = None)) →
     imputed_table df mask st = Ok df) ∧
  (∀ cs mask st,
     "City"%string ∈ cs → "Has Table booking"%string ∈ cs →
     "Has Online delivery"%string ∈ cs →
     imputed_table (mkDF cs []) mask st = Ok (mkDF cs [])).
Proof.
  split.
  - intros df mask st H1 H2 H3 Hidx Hnone.
    apply imputed_table_nothing_selected; try done.
    unfold selected, getitem_bool, check_bool_indexer.
    rewrite index_no_services_mask, bool_decide_eq_true_2 by done. cbn.
    f_equal. apply take_true_all_false.
    unfold no_services_mask. rewrite <- list_fmap_compose.
    apply Forall_fmap, Forall_forall. intros [l raw] Hin. simpl.
    destruct (all_null raw) eqn:Hraw; [|done].
    destruct (Hnone l raw Hin). by apply all_null_true.
  - intros cs mask st H1 H2 H3.
    apply imputed_table_nothing_selected;
      [by apply bool_decide_eq_true_2..|apply selected_empty].
Qed.

Lemma no_eligible_rows_returns_input_witness :
  imputed_table Examples.listed_rows Examples.listed_raw Examples.high_draws
    = Ok Examples.listed_rows ∧
  imputed_table Examples.empty_table Examples.two_rows_raw Examples.high_draws
    = Ok Examples.empty_table.
Proof.
  split.
  - apply (proj1 no_eligible_rows_returns_input); [reflexivity..|].
    intros l raw Hin (Hb & _ & _).
    apply list_elem_of_In in Hin. simpl in Hin.
    destruct Hin as [[= <- <-]|[[= <- <-]|[]]]; discriminate Hb.
  - apply (proj2 no_eligible_rows_returns_input);
      refine (bool_decide_unpack _ _); vm_compute; exact I.
Defined.

(** C9, as claimed, fails: a mask with a row more than the table is
    malformed input, yet the run raises nothing and returns a table. *)
Lemma longer_mask_is_accepted :
  malformed Examples.listed_rows Examples.longer_raw ∧
  imputed_table Examples.listed_rows Examples.longer_raw Examples.high_draws
    = Ok Examples.listed_rows ∧
  ¬ signals_error Examples.listed_rows Examples.longer_raw Examples.high_draws.
Proof.
  split_and!.
  - right. discriminate.
  - vm_compute. reflexivity.
  - intros [e He]. vm_compute in He. discriminate He.
Qed.

(** C9, amended. A table without the city column raises KeyError, and so
    does a table that has it but lacks one of the two service columns that
    are averaged. With the three columns present, a table with a row label
    that the mask lacks raises IndexingError. When the row labels of the
    table and those of the mask are unique and every row label of the table
    occurs in the mask, the mask is aligned to the table by label and the
    selection raises nothing, whatever else differs between the two indexes
    (more labels in the mask, another order). *)
Theorem malformed_input_errors df mask st :
  (has_column df "City" = false →
     impute_missing_services df mask st = Err (KeyError "City")) ∧
  (has_column df "City" = true →
   has_column df "Has Table booking" = false ∨
   has_column df "Has Online delivery" = false →
     ∃ label, impute_missing_services df mask st = Err (KeyError label)) ∧
  (has_column df "City" = true →
   has_column df "Has Table booking" = true →
   has_column df "Has Online delivery" = true →
   (∃ l, l ∈ index (rows df) ∧ l ∉ index mask) →
     impute_missing_services df mask st = Err IndexingError) ∧
  (NoDup (index (rows df)) →
   NoDup (index mask) →
   (∀ l, l ∈ index (rows df) → l ∈ index mask) →
     selected df mask = Ok (filter (λ lr, eligible mask lr.1 = true) (rows df))).
Proof.
  split_and!.
  - intros H. unfold impute_missing_services, restaurants_to_impute,
      city_probabilities, require_column. by rewrite H.
  - intros H1 H2. unfold impute_missing_services, restaurants_to_impute,
      city_probabilities, require_column. rewrite H1. cbn [rbind].
    destruct (has_column df "Has Table booking") eqn:Hb; cbn [rbind];
      [|by eexists].
    destruct H2 as [H2|H2]; [done|]. rewrite H2. cbn [rbind]. by eexists.
  - intros H1 H2 H3 (l & Hl & Hn).
    unfold impute_missing_services, restaurants_to_impute.
    rewrite (city_probabilities_Ok df H1 H2 H3). cbn [rbind].
    by rewrite (selected_Err df mask l Hl Hn).
  - intros Hnd _. by apply selected_Ok.
Qed.

Lemma malformed_input_errors_witness :
  impute_missing_services Examples.no_city_column Examples.listed_raw
    Examples.high_draws = Err (KeyError "City") ∧
  (∃ label, impute_missing_services Examples.no_booking_column
              Examples.shorter_raw Examples.high_draws = Err (KeyError label)) ∧
  impute_missing_services Examples.listed_rows Examples.shorter_raw
    Examples.high_draws = Err IndexingError ∧
  selected Examples.listed_rows Examples.longer_raw = Ok [].
Proof.
  split_and!.
  - apply (proj1 (malformed_input_errors Examples.no_city_column
                    Examples.listed_raw Examples.high_draws)).
    reflexivity.
  - apply (proj1 (proj2 (malformed_input_errors Examples.no_booking_column
                           Examples.shorter_raw Examples.high_draws)));
      [reflexivity|left; reflexivity].
  - apply (proj1 (proj2 (proj2 (malformed_input_errors Examples.listed_rows
                                  Examples.shorter_raw Examples.high_draws))));
      [reflexivity..|].
    exists 1%Z. split; refine (bool_decide_unpack _ _); vm_compute; exact I.
  - rewrite (proj2 (proj2 (proj2 (malformed_input_errors Examples.listed_rows
                                    Examples.longer_raw Examples.high_draws)))).
    + vm_compute. reflexivity.
    + refine (bool_decide_unpack _ _). vm_compute. exact I.
    + refine (bool_decide_unpack _ _). vm_compute. exact I.
    + intros l Hl. apply list_elem_of_In in Hl. simpl in Hl.
      destruct Hl as [<-|[<-|[]]]; refine (bool_decide_unpack _ _);
        vm_compute; exact I.
Defined.

Lemma length_filter_eligible {A} mask (s : Series A) :
  length (filter (λ lr : Z * A, eligible mask lr.1 = true) s) =
  length (filter (λ l, eligible mask l = true) (index s)).
Proof.
  unfold index. induction s as [|[l a] s IH]; [reflexivity|].
  csimpl. rewrite !filter_cons. simpl.
  destruct (decide (eligible mask l = true)); simpl; lia.
Qed.

Lemma selected_inv df mask sel :
  NoDup (index (rows df)) →
  selected df mask = Ok sel →
  sel = filter (λ lr, eligible mask lr.1 = true) (rows df).
Proof.
  intros Hnd Hs.
  destruct (decide (Forall (λ l, l ∈ index mask) (index (rows df)))) as [Hall|Hex].
  - rewrite Forall_forall in Hall. rewrite selected_Ok in Hs by done. congruence.
  - apply not_Forall_Exists, Exists_exists in Hex as (l & Hl & Hn); [|apply _].
    rewrite (selected_Err df mask l Hl Hn) in Hs. discriminate Hs.
Qed.

Lemma write_index_of_selected df mask t :
  NoDup (index (rows df)) →
  restaurants_to_impute df mask = Ok t →
  index t =
  RangeIndex (length (filter (λ l, eligible mask l = true) (index (rows df)))).
Proof.
  intros Hnd (probs & sel & _ & Hs & ->)%restaurants_to_impute_inv.
  apply selected_inv in Hs as ->; [|done].
  rewrite index_merged. f_equal. apply length_filter_eligible.
Qed.

(** What a successful run on a table with unique labels writes: the rows
    labelled 0, ..., k-1, where k is the number of eligible rows. *)
Lemma impute_writes_at_RangeIndex df mask st out :
  NoDup (index (rows df)) →
  imputed_table df mask st = Ok out →
  written_at
    (RangeIndex (length (filter (λ l, eligible mask l = true) (index (rows df)))))
    df out.
Proof.
  intros Hnd [st' Hrun]%imputed_table_inv.
  apply impute_inv in Hrun as (t & ib & idl & Ht & Hs & _ & ->).
  destruct (index_sample _ _ _ _ _ Hs) as [Hib Hidl].
  rewrite <- (write_index_of_selected df mask t Hnd Ht).
  by exists ib, idl.
Qed.

(** C10. Two successful runs on tables with the same set of (unique) row
    labels and the same mask assign through [df.loc] at the same index
    labels, whatever the cells of the two tables and whatever the draws. *)
Theorem written_rows_depend_on_mask_only df1 df2 mask st1 st2 out1 out2 :
  index (rows df1) ≡ₚ index (rows df2) →
  NoDup (index (rows df1)) →
  imputed_table df1 mask st1 = Ok out1 →
  imputed_table df2 mask st2 = Ok out2 →
  ∃ W, write_index df1 mask = Ok W ∧ write_index df2 mask = Ok W ∧
       written_at W df1 out1 ∧ written_at W df2 out2.
Proof.
  intros Hperm Hnd1 [st1' Hrun1]%imputed_table_inv [st2' Hrun2]%imputed_table_inv.
  assert (Hnd2 : NoDup (index (rows df2))) by (by rewrite <- Hperm).
  apply impute_inv in Hrun1 as (t1 & ib1 & idl1 & Ht1 & Hs1 & _ & ->).
  apply impute_inv in Hrun2 as (t2 & ib2 & idl2 & Ht2 & Hs2 & _ & ->).
  destruct (index_sample _ _ _ _ _ Hs1) as [Hib1 Hidl1].
  destruct (index_sample _ _ _ _ _ Hs2) as [Hib2 Hidl2].
  assert (Heq : index t2 = index t1).
  { rewrite (write_index_of_selected df1 mask t1 Hnd1 Ht1).
    rewrite (write_index_of_selected df2 mask t2 Hnd2 Ht2).
    f_equal. apply Permutation_length. by rewrite Hperm. }
  exists (index t1). unfold write_index. rewrite Ht1, Ht2. cbn [rbind].
  split_and!; [done|by rewrite Heq|..].
  - by exists ib1, idl1.
  - exists ib2, idl2. by rewrite Hib2, Hidl2, Heq.
Qed.

Lemma written_rows_depend_on_mask_only_witness :
  ∃ W, write_index Examples.two_rows Examples.two_rows_raw = Ok W ∧
       write_index Examples.listed_rows Examples.two_rows_raw = Ok W.
Proof.
  edestruct (written_rows_depend_on_mask_only
               Examples.two_rows Examples.listed_rows Examples.two_rows_raw
               Examples.high_draws Examples.low_draws)
    as (W & H1 & H2 & _).
  - reflexivity.
  - refine (bool_decide_unpack _ _). vm_compute. exact I.
  - vm_compute. reflexivity.
  - vm_compute. reflexivity.
  - exists W. split; [exact H1|exact H2].
Defined.

(** ** Further properties of the imputation pass *)

Lemma restaurants_to_impute_selected df mask :
  has_column df "City" = true →
  has_column df "Has Table booking" = true →
  has_column df "Has Online delivery" = true →
  NoDup (index (rows df)) →
  (∀ l, l ∈ index (rows df) → l ∈ index mask) →
  ∃ t, restaurants_to_impute df mask = Ok t ∧
       index t =
       RangeIndex (length (filter (λ l, eligible mask l = true) (index (rows df)))).
Proof.
  intros H1 H2 H3 Hnd Hall. eexists. split.
  - eapply restaurants_to_impute_Ok;
      [by apply city_probabilities_Ok|by apply selected_Ok].
  - rewrite index_merged. f_equal. apply length_filter_eligible.
Qed.

Lemma impute_returns_or_raises df mask st :
  has_column df "City" = true →
  has_column df "Has Table booking" = true →
  has_column df "Has Online delivery" = true →
  NoDup (index (rows df)) →
  (∀ l, l ∈ index (rows df) → l ∈ index mask) →
  ((∀ l, l ∈ RangeIndex (length (filter (λ l, eligible mask l = true)
                                        (index (rows df)))) →
         l ∈ index (rows df)) →
   ∃ out, imputed_table df mask st = Ok out) ∧
  (∀ l, l ∈ RangeIndex (length (filter (λ l, eligible mask l = true)
                                       (index (rows df)))) →
        l ∉ index (rows df) →
   ∃ msg, imputed_table df mask st = Err (KeyError msg)).
Proof.
  intros H1 H2 H3 Hnd Hall.
  destruct (restaurants_to_impute_selected df mask H1 H2 H3 Hnd Hall)
    as (t & Ht & Hidx).
  split.
  - intros Hin. eexists. unfold imputed_table.
    rewrite (impute_Ok df mask st t Ht); [reflexivity|]. by rewrite Hidx.
  - intros l Hl Hn. rewrite imputed_table_eq, Ht. cbn [rbind].
    destruct (sample t st) as [[ib idl] st'] eqn:Hs. cbn [fst snd].
    destruct (index_sample _ _ _ _ _ Hs) as [Hib _].
    destruct (loc_set_KeyError set_booking ib (rows df) l) as [msg ->];
      [by rewrite Hib, Hidx|done|].
    by exists msg.
Qed.

(** X1. On a table with the three columns and unique row labels, all of
    them known to the mask, the call returns a table when every label
    0, ..., k-1 (k the number of eligible rows) is a row label of the table,
    and raises KeyError as soon as one of them is not. *)
Theorem impute_returns_iff_labels_present df mask st :
  has_column df "City" = true →
  has_column df "Has Table booking" = true →
  has_column df "Has Online delivery" = true →
  NoDup (index (rows df)) →
  (∀ l, l ∈ index (rows df) → l ∈ index mask) →
  ((∀ l, l ∈ RangeIndex (length (filter (λ l, eligible mask l = true)
                                        (index (rows df)))) →
         l ∈ index (rows df)) →
   ∃ out, imputed_table df mask st = Ok out) ∧
  (∀ l, l ∈ RangeIndex (length (filter (λ l, eligible mask l = true)
                                       (index (rows df)))) →
        l ∉ index (rows df) →
   ∃ msg, imputed_table df mask st = Err (KeyError msg)).
Proof. apply impute_returns_or_raises. Qed.

Lemma impute_returns_iff_labels_present_witness :
  (∃ out, imputed_table Examples.two_rows Examples.two_rows_raw
            Examples.high_draws = Ok out) ∧
  (∃ msg, imputed_table Examples.gap_rows Examples.gap_rows_raw
            Examples.high_draws = Err (KeyError msg)).
Proof.
  split.
  - apply (proj1 (impute_returns_iff_labels_present Examples.two_rows
                    Examples.two_rows_raw Examples.high_draws
                    eq_refl eq_refl eq_refl
                    ltac:(refine (bool_decide_unpack _ _); vm_compute; exact I)
                    ltac:(intros l Hl; exact Hl))).
    intros l Hl. vm_compute in Hl. vm_compute.
    apply list_elem_of_In in Hl. apply list_elem_of_In. simpl in *. tauto.
  - apply (proj2 (impute_returns_iff_labels_present Examples.gap_rows
                    Examples.gap_rows_raw Examples.high_draws
                    eq_refl eq_refl eq_refl
                    ltac:(refine (bool_decide_unpack _ _); vm_compute; exact I)
                    ltac:(intros l Hl; exact Hl)) 0%Z);
      refine (bool_decide_unpack _ _); vm_compute; exact I.
Defined.

Lemma length_filter_le {A} (P : A → Prop) `{!∀ x, Decision (P x)} (l : list A) :
  length (filter P l) ≤ length l.
Proof.
  induction l as [|x l IH]; [done|]. rewrite filter_cons.
  destruct (decide (P x)); simpl; lia.
Qed.

(** X2. On a table that still has the default index 0, ..., n-1 of
    [read_csv], with the three columns and the mask on the same index, the
    call never raises: it returns a table. *)
Theorem impute_returns_on_default_index df mask st :
  has_column df "City" = true →
  has_column df "Has Table booking" = true →
  has_column df "Has Online delivery" = true →
  index (rows df) = RangeIndex (length (rows df)) →
  index mask = index (rows df) →
  ∃ out, imputed_table df mask st = Ok out.
Proof.
  intros H1 H2 H3 Hidx Hmask.
  apply (impute_returns_or_raises df mask st H1 H2 H3).
  - rewrite Hidx. apply NoDup_RangeIndex.
  - intros l. by rewrite Hmask.
  - intros l Hl. rewrite Hidx. apply elem_of_RangeIndex.
    apply elem_of_RangeIndex in Hl.
    pose proof (length_filter_le (λ l, eligible mask l = true) (index (rows df))) as Hle.
    unfold index in Hle at 2. rewrite length_fmap in Hle. lia.
Qed.

Lemma impute_returns_on_default_index_witness :
  ∃ out, imputed_table Examples.two_rows Examples.two_rows_raw
           Examples.low_draws = Ok out.
Proof.
  apply (impute_returns_on_default_index Examples.two_rows Examples.two_rows_raw
           Examples.low_draws); reflexivity.
Defined.

Lemma series_get_lookup {A} (s : Series A) j l a :
  NoDup (index s) → s !! j = Some (l, a) → series_get s l = Some a.
Proof.
  intros Hnd Hj. apply series_get_NoDup; [done|].
  by eapply list_elem_of_lookup_2.
Qed.

Lemma NoDup_index_sample t st :
  index t = RangeIndex (length t) →
  NoDup (index (sample t st).1.1) ∧ NoDup (index (sample t st).1.2).
Proof.
  intros Hidx. destruct (sample t st) as [[ib idl] st'] eqn:Hs.
  destruct (index_sample _ _ _ _ _ Hs) as [Hib Hidl]. cbn [fst snd].
  rewrite Hib, Hidl, Hidx. split; apply NoDup_RangeIndex.
Qed.

Lemma impute_rows_spec df mask st probs sel out :
  city_probabilities df = Ok probs →
  selected df mask = Ok sel →
  imputed_table df mask st = Ok out →
  ∀ i l r, rows df !! i = Some (l, r) →
    (∀ j l0 r0, l = Z.of_nat j → sel !! j = Some (l0, r0) →
       rows out !! i =
       Some (l, set_delivery
                  (lt_prob (st (length sel + j)) (resolved_delivery df probs r0))
                  (set_booking (lt_prob (st j) (resolved_booking df probs r0)) r))) ∧
    (¬ (0 ≤ l < Z.of_nat (length sel))%Z → rows out !! i = Some (l, r)).
Proof.
  intros Hp Hs [st' Hrun]%imputed_table_inv i l r Hi.
  apply impute_inv in Hrun as (t & ib & idl & Ht & Hsam & _ & ->).
  rewrite (restaurants_to_impute_Ok _ _ _ _ Hp Hs) in Ht. injection Ht as <-.
  pose proof (NoDup_index_sample (imap (merged_row df probs) sel) st) as [Hnb Hnd].
  { by rewrite index_merged, length_imap. }
  destruct (index_sample _ _ _ _ _ Hsam) as [Hib Hidl].
  rewrite index_merged in Hib, Hidl.
  rewrite Hsam in Hnb, Hnd. cbn [fst snd] in Hnb, Hnd.
  cbn [rows]. rewrite !list_lookup_fmap, Hi. cbn [fmap option_fmap option_map].
  split.
  - intros j l0 r0 -> Hj.
    destruct (sample_lookup df probs sel st j l0 r0 Hj) as [Hb Hd].
    rewrite Hsam in Hb, Hd. cbn [fst snd] in Hb, Hd.
    unfold loc_write at 2. cbn [fst snd].
    rewrite (series_get_lookup ib j _ _ Hnb Hb).
    unfold loc_write. cbn [fst snd].
    by rewrite (series_get_lookup idl j _ _ Hnd Hd).
  - intros Hout.
    assert (Hl : ∀ v : Series bool, index v = RangeIndex (length sel) →
                                    series_get v l = None).
    { intros v Hv. apply series_get_None. rewrite Hv, elem_of_RangeIndex. lia. }
    unfold loc_write at 2. cbn [fst snd]. rewrite (Hl ib Hib).
    unfold loc_write. cbn [fst snd]. by rewrite (Hl idl Hidl).
Qed.

(** X3. What a successful run does to each row. The row labelled [j], for
    [j] below the number [k] of selected rows, receives the two values
    sampled for the [j]-th selected row (draw [j] against that row's booking
    probability, draw [k + j] against its delivery probability); every row
    whose label is not one of 0, ..., k-1 is returned as it was. *)
Theorem impute_row_by_row df mask st probs sel out :
  city_probabilities df = Ok probs →
  selected df mask = Ok sel →
  imputed_table df mask st = Ok out →
  ∀ i l r, rows df !! i = Some (l, r) →
    (∀ j l0 r0, l = Z.of_nat j → sel !! j = Some (l0, r0) →
       rows out !! i =
       Some (l, set_delivery
                  (lt_prob (st (length sel + j)) (resolved_delivery df probs r0))
                  (set_booking (lt_prob (st j) (resolved_booking df probs r0)) r))) ∧
    (¬ (0 ≤ l < Z.of_nat (length sel))%Z → rows out !! i = Some (l, r)).
Proof. apply impute_rows_spec. Qed.

Lemma impute_row_by_row_witness :
  rows Examples.two_rows_out !! 0 =
    Some (0%Z, mkRow (Some "A"%string) false false false ["Cafe One"%string]) ∧
  rows Examples.two_rows_out !! 1 =
    Some (1%Z, mkRow (Some "A"%string) false false false ["Cafe Two"%string]).
Proof.
  assert (Hp : city_probabilities Examples.two_rows =
               Ok (acc_means <$> groupby_City (rows Examples.two_rows)))
    by reflexivity.
  assert (Hs : selected Examples.two_rows Examples.two_rows_raw =
               Ok [(1%Z, mkRow (Some "A"%string) false false false
                           ["Cafe Two"%string])])
    by (vm_compute; reflexivity).
  assert (Hr : imputed_table Examples.two_rows Examples.two_rows_raw
                 Examples.high_draws = Ok Examples.two_rows_out)
    by (vm_compute; reflexivity).
  pose proof (impute_row_by_row _ _ _ _ _ _ Hp Hs Hr) as H.
  split.
  - destruct (H 0 0%Z _ eq_refl) as [H0 _].
    rewrite (H0 0 _ _ eq_refl eq_refl). vm_compute. reflexivity.
  - destruct (H 1 1%Z _ eq_refl) as [_ H1]. apply H1. simpl. lia.
Defined.

Lemma take_true_elem_of {A} (bs : list bool) (l : list A) x :
  x ∈ take_true bs l → x ∈ l.
Proof.
  revert l. induction bs as [|b bs IH]; intros [|y l]; simpl;
    try (intros H; by apply elem_of_nil in H).
  destruct b.
  - intros [->|Hx]%elem_of_cons; [left|right; auto].
  - intros Hx. right. auto.
Qed.

Lemma selected_elem_of df mask sel lr :
  selected df mask = Ok sel → lr ∈ sel → lr ∈ rows df.
Proof.
  unfold selected, getitem_bool.
  destruct (check_bool_indexer _ _) as [bs|]; cbn [rbind]; [|done].
  intros [= <-]. apply take_true_elem_of.
Qed.

Lemma RangeIndex_lookup k j : j < k → RangeIndex k !! j = Some (Z.of_nat j).
Proof. intros Hj. by apply seq_fmap_lookup. Qed.

(** X4. When the eligible rows of a table with unique labels are exactly
    the rows labelled 0, ..., k-1, in this order, a successful run does what
    the docstring says: a row that is not eligible is returned as it was,
    and each eligible row receives the values sampled from its own
    probabilities. *)
Theorem impute_right_when_eligible_rows_lead df mask st probs sel out :
  city_probabilities df = Ok probs →
  selected df mask = Ok sel →
  NoDup (index (rows df)) →
  index sel = RangeIndex (length sel) →
  imputed_table df mask st = Ok out →
  (∀ i l r, rows df !! i = Some (l, r) → eligible mask l = false →
     rows out !! i = Some (l, r)) ∧
  (∀ i j l r, rows df !! i = Some (l, r) → sel !! j = Some (l, r) →
     rows out !! i =
     Some (l, set_delivery
                (lt_prob (st (length sel + j)) (resolved_delivery df probs r))
                (set_booking (lt_prob (st j) (resolved_booking df probs r)) r))).
Proof.
  intros Hp Hs Hnd Hlead Hrun. split.
  - intros i l r Hi Hel.
    apply (impute_rows_spec df mask st probs sel out Hp Hs Hrun i l r Hi).
    intros Hl. apply elem_of_RangeIndex in Hl. rewrite <- Hlead in Hl.
    apply list_elem_of_fmap in Hl as ([l' r'] & -> & Hin).
    rewrite (selected_inv df mask sel Hnd Hs) in Hin.
    apply list_elem_of_filter in Hin as [Hin _]. simpl in *. congruence.
  - intros i j l r Hi Hj.
    apply (proj1 (impute_rows_spec df mask st probs sel out Hp Hs Hrun i l r Hi)
             j l r); [|done].
    assert (Hl : index sel !! j = Some l).
    { unfold index. by rewrite list_lookup_fmap, Hj. }
    rewrite Hlead, RangeIndex_lookup in Hl by (by eapply lookup_lt_Some).
    congruence.
Qed.

Lemma impute_right_when_eligible_rows_lead_witness :
  rows Examples.eligible_first_out !! 1 =
    Some (1%Z, mkRow (Some "A"%string) true true false ["Cafe One"%string]) ∧
  rows Examples.eligible_first_out !! 0 =
    Some (0%Z, mkRow (Some "A"%string) true true false ["Cafe Two"%string]).
Proof.
  assert (Hp : city_probabilities Examples.eligible_first =
               Ok (acc_means <$> groupby_City (rows Examples.eligible_first)))
    by reflexivity.
  assert (Hs : selected Examples.eligible_first Examples.eligible_first_raw =
               Ok [(0%Z, mkRow (Some "A"%string) false false false
                           ["Cafe Two"%string])])
    by (vm_compute; reflexivity).
  assert (Hnd : NoDup (index (rows Examples.eligible_first)))
    by (refine (bool_decide_unpack _ _); vm_compute; exact I).
  assert (Hr : imputed_table Examples.eligible_first Examples.eligible_first_raw
                 Examples.low_draws = Ok Examples.eligible_first_out)
    by (vm_compute; reflexivity).
  destruct (impute_right_when_eligible_rows_lead _ _ _ _ _ _ Hp Hs Hnd eq_refl Hr)
    as [Hkeep Hset].
  split.
  - apply (Hkeep 1 1%Z _ eq_refl). reflexivity.
  - rewrite (Hset 0 0 0%Z _ eq_refl eq_refl). vm_compute. reflexivity.
Defined.

Lemma rows_of_city_elem_of c rs lr :
  lr ∈ rs → City lr.2 = Some c → lr ∈ rows_of_city c rs.
Proof. intros Hin Hc. apply list_elem_of_filter. done. Qed.

Lemma mean_is_Some l : l ≠ [] → is_Some (mean l).
Proof. destruct l; [done|]. intros _. by eexists. Qed.

Lemma resolved_of_city df probs l r c :
  city_probabilities df = Ok probs →
  (l, r) ∈ rows df →
  City r = Some c →
  resolved_booking df probs r
    = mean (column Has_Table_booking (rows_of_city c (rows df))) ∧
  resolved_delivery df probs r
    = mean (column Has_Online_delivery (rows_of_city c (rows df))) ∧
  rows_of_city c (rows df) ≠ [].
Proof.
  intros Hp Hin Hc.
  pose proof (rows_of_city_elem_of c (rows df) (l, r) Hin Hc) as Hcity.
  assert (Hne : rows_of_city c (rows df) ≠ []).
  { intros Heq. rewrite Heq in Hcity. by apply elem_of_nil in Hcity. }
  unfold resolved_booking, resolved_delivery, city_prob_booking,
    city_prob_delivery, lookup_city.
  rewrite Hc. cbn [mbind option_bind].
  rewrite (city_probabilities_lookup df probs c Hp).
  destruct (rows_of_city c (rows df)) as [|lr f] eqn:Hf; [done|].
  cbn [mbind option_bind fst snd].
  split_and!; [| |done].
  - destruct (mean_is_Some (column Has_Table_booking (lr :: f))) as [q ->]; done.
  - destruct (mean_is_Some (column Has_Online_delivery (lr :: f))) as [q ->]; done.
Qed.

(** X5. The global fallback is used for the rows whose city cell is NaN and
    for no other row of the table: a row with a city is sampled with the
    means of the rows of its city, which are defined and lie in [0, 1],
    whatever the global means are. *)
Theorem fallback_only_for_missing_city df probs l r :
  city_probabilities df = Ok probs →
  (l, r) ∈ rows df →
  match City r with
  | Some c =>
      resolved_booking df probs r
        = mean (column Has_Table_booking (rows_of_city c (rows df))) ∧
      resolved_delivery df probs r
        = mean (column Has_Online_delivery (rows_of_city c (rows df))) ∧
      in_unit_interval (resolved_booking df probs r) ∧
      in_unit_interval (resolved_delivery df probs r)
  | None =>
      resolved_booking df probs r = global_prob_booking df ∧
      resolved_delivery df probs r = global_prob_delivery df
  end.
Proof.
  intros Hp Hin. destruct (City r) as [c|] eqn:Hc.
  - destruct (resolved_of_city df probs l r c Hp Hin Hc) as (Hb & Hd & Hne).
    rewrite Hb, Hd. split_and!; try done; apply mean_unit;
      unfold column; by destruct (rows_of_city c (rows df)).
  - unfold resolved_booking, resolved_delivery, city_prob_booking,
      city_prob_delivery, lookup_city. by rewrite Hc.
Qed.

Lemma fallback_only_for_missing_city_witness :
  resolved_booking Examples.nan_city
    (acc_means <$> groupby_City (rows Examples.nan_city))
    (mkRow None false false false ["Cafe Zero"%string])
  = global_prob_booking Examples.nan_city ∧
  in_unit_interval
    (resolved_booking Examples.nan_city
       (acc_means <$> groupby_City (rows Examples.nan_city))
       (mkRow (Some "A"%string) true false false ["Cafe One"%string])).
Proof.
  split.
  - apply (fallback_only_for_missing_city Examples.nan_city _ 0%Z
             (mkRow None false false false ["Cafe Zero"%string]) eq_refl).
    apply list_elem_of_In. simpl. auto.
  - apply (fallback_only_for_missing_city Examples.nan_city _ 1%Z
             (mkRow (Some "A"%string) true false false ["Cafe One"%string])
             eq_refl).
    apply list_elem_of_In. simpl. auto.
Defined.

Lemma sum_bool_all_false l : Forall (λ b, b = false) l → sum_bool l = 0.
Proof. induction 1 as [|b l -> _ IH]; simpl; [done|exact IH]. Qed.

Lemma lt_prob_mean_all_false l d :
  Forall (λ b, b = false) l → (0 <= d)%Q → lt_prob d (mean l) = false.
Proof.
  intros Hl Hd. unfold mean. rewrite (sum_bool_all_false l Hl).
  destruct (length l); [reflexivity|]. unfold ratio, lt_prob, Qltb. simpl.
  apply Z.ltb_ge. unfold Qle in Hd. simpl in Hd. lia.
Qed.

(** X6. A city in which no restaurant has the service, as the table
    stands when the call is made, never gets it imputed: for a selected row
    of such a city the sampled value is false for every non-negative draw.
    This includes a city all of whose restaurants arrive with the flags
    defaulted to false. *)
Theorem no_service_in_city_never_imputed df mask st probs sel j l r c :
  city_probabilities df = Ok probs →
  selected df mask = Ok sel →
  sel !! j = Some (l, r) →
  City r = Some c →
  ∃ t, restaurants_to_impute df mask = Ok t ∧
    ((∀ lr, lr ∈ rows_of_city c (rows df) → Has_Table_booking lr.2 = false) →
     (0 <= st j)%Q →
     (sample t st).1.1 !! j = Some (Z.of_nat j, false)) ∧
    ((∀ lr, lr ∈ rows_of_city c (rows df) → Has_Online_delivery lr.2 = false) →
     (0 <= st (length sel + j)%nat)%Q →
     (sample t st).1.2 !! j = Some (Z.of_nat j, false)).
Proof.
  intros Hp Hs Hj Hc. eexists. split; [by apply restaurants_to_impute_Ok|].
  destruct (sample_lookup df probs sel st j l r Hj) as [Hb Hd].
  assert (Hin : (l, r) ∈ rows df).
  { eapply selected_elem_of; [done|]. by eapply list_elem_of_lookup_2. }
  destruct (resolved_of_city df probs l r c Hp Hin Hc) as (Eb & Ed & _).
  split; intros Hnone Hdraw.
  - rewrite Hb, Eb, lt_prob_mean_all_false; [done| |done].
    unfold column. apply Forall_fmap, Forall_forall. intros lr Hlr. by apply Hnone.
  - rewrite Hd, Ed, lt_prob_mean_all_false; [done| |done].
    unfold column. apply Forall_fmap, Forall_forall. intros lr Hlr. by apply Hnone.
Qed.

Lemma no_service_in_city_never_imputed_witness :
  ∃ t, restaurants_to_impute Examples.quiet_city Examples.two_rows_raw = Ok t ∧
       (sample t Examples.low_draws).1.1 !! 0 = Some (0%Z, false) ∧
       (sample t Examples.low_draws).1.2 !! 0 = Some (0%Z, false).
Proof.
  assert (Hs : selected Examples.quiet_city Examples.two_rows_raw =
               Ok [(1%Z, mkRow (Some "B"%string) false false false
                           ["Cafe Two"%string])])
    by (vm_compute; reflexivity).
  destruct (no_service_in_city_never_imputed
              Examples.quiet_city Examples.two_rows_raw Examples.low_draws
              _ _ 0 _ _ "B"%string eq_refl Hs eq_refl eq_refl)
    as (t & Ht & Hb & Hd).
  exists t. split; [exact Ht|]. split.
  - apply Hb; [|discriminate].
    intros lr Hlr. apply list_elem_of_In in Hlr. vm_compute in Hlr.
    destruct Hlr as [<-|[]]. reflexivity.
  - apply Hd; [|discriminate].
    intros lr Hlr. apply list_elem_of_In in Hlr. vm_compute in Hlr.
    destruct Hlr as [<-|[]]. reflexivity.
Defined.

Lemma series_get_Permutation {A} (s1 s2 : Series A) l :
  NoDup (index s1) → s1 ≡ₚ s2 → series_get s1 l = series_get s2 l.
Proof.
  intros Hnd Hperm.
  assert (Hnd2 : NoDup (index s2)) by (unfold index in *; by rewrite <- Hperm).
  destruct (series_get s1 l) as [a|] eqn:H1.
  - symmetry. apply series_get_NoDup; [done|].
    rewrite <- Hperm. by apply series_get_elem_of.
  - symmetry. apply series_get_None. apply series_get_None in H1.
    unfold index in *. by rewrite <- Hperm.
Qed.

Lemma reindex_bool_ext k1 k2 idx :
  (∀ l, series_get k1 l = series_get k2 l) →
  reindex_bool k1 idx = reindex_bool k2 idx.
Proof.
  intros Hext. induction idx as [|l idx IH]; [reflexivity|].
  simpl. by rewrite Hext, IH.
Qed.

Lemma selected_Permutation df m1 m2 :
  NoDup (index (rows df)) → NoDup (index m1) → m1 ≡ₚ m2 →
  selected df m1 = selected df m2.
Proof.
  intros Hnd Hm Hperm. unfold selected, getitem_bool.
  rewrite !check_bool_indexer_reindex by done.
  rewrite (reindex_bool_ext (no_services_mask m1) (no_services_mask m2));
    [done|].
  intros l. unfold no_services_mask. rewrite !series_get_fmap.
  by rewrite (series_get_Permutation m1 m2 l Hm Hperm).
Qed.

(** X7. The mask is matched to the table by row label, not by position:
    for a table and a mask with unique labels, handing the rows of the mask
    over in another order gives the same result, error or table. *)
Theorem mask_row_order_is_irrelevant df m1 m2 st :
  NoDup (index (rows df)) →
  NoDup (index m1) →
  m1 ≡ₚ m2 →
  imputed_table df m1 st = imputed_table df m2 st.
Proof.
  intros Hnd Hm Hperm. rewrite !imputed_table_eq. unfold restaurants_to_impute.
  by rewrite (selected_Permutation df m1 m2 Hnd Hm Hperm).
Qed.

Lemma mask_row_order_is_irrelevant_witness :
  imputed_table Examples.two_rows Examples.two_rows_raw Examples.high_draws
  = imputed_table Examples.two_rows (reverse Examples.two_rows_raw)
      Examples.high_draws.
Proof.
  apply (mask_row_order_is_irrelevant Examples.two_rows Examples.two_rows_raw
           (reverse Examples.two_rows_raw) Examples.high_draws).
  - refine (bool_decide_unpack _ _). vm_compute. exact I.
  - refine (bool_decide_unpack _ _). vm_compute. exact I.
  - symmetry. apply reverse_Permutation.
Defined.

(** ** The loader *)

Lemma lower_char_cases (a : Ascii.ascii) :
  (lower_char a = "y"%char ↔ a = "y"%char ∨ a = "Y"%char) ∧
  (lower_char a = "e"%char ↔ a = "e"%char ∨ a = "E"%char) ∧
  (lower_char a = "s"%char ↔ a = "s"%char ∨ a = "S"%char).
Proof.
  destruct a as [[] [] [] [] [] [] [] []]; vm_compute; repeat split; intros H;
    try discriminate H;
    try (destruct H as [H|H]; (discriminate H || reflexivity));
    try (left; reflexivity); try (right; reflexivity).
Qed.

(** X8. A service flag of the cleaned table is true exactly when the raw
    cell spells "yes" in any mix of capital and small letters; an empty
    cell, and any other text, gives false. *)
Theorem coerce_service_true_iff c :
  coerce_service c = true ↔
  ∃ a b d, c = Some (String a (String b (String d EmptyString))) ∧
    (a = "y"%char ∨ a = "Y"%char) ∧ (b = "e"%char ∨ b = "E"%char) ∧
    (d = "s"%char ∨ d = "S"%char).
Proof.
  unfold coerce_service. rewrite bool_decide_eq_true. split.
  - destruct c as [s|]; [|discriminate]. simpl.
    destruct s as [|a [|b [|d [|e s]]]]; try discriminate.
    simpl. intros [= Ha Hb Hd]. exists a, b, d.
    split; [done|]. split_and!.
    + by apply (lower_char_cases a).
    + by apply (lower_char_cases b).
    + by apply (lower_char_cases d).
  - intros (a & b & d & -> & Ha & Hb & Hd). simpl.
    apply (lower_char_cases a) in Ha. apply (lower_char_cases b) in Hb.
    apply (lower_char_cases d) in Hd. by rewrite Ha, Hb, Hd.
Qed.

Lemma imputed_rows_frame df mask st out :
  imputed_table df mask st = Ok out →
  columns out = columns df ∧
  Forall2 (λ a b : Z * Row,
             b.1 = a.1 ∧ City b.2 = City a.2 ∧
             Is_delivering_now b.2 = Is_delivering_now a.2 ∧
             other_columns b.2 = other_columns a.2)
          (rows df) (rows out).
Proof.
  intros [st' Hrun]%imputed_table_inv.
  apply impute_inv in Hrun as (t & ib & idl & _ & _ & _ & ->). simpl.
  split; [done|].
  rewrite <- list_fmap_compose. apply Forall2_fmap_r, Forall_Forall2_diag, Forall_forall.
  intros lr _. unfold compose.
  destruct (loc_write_frame set_booking ib lr) as (E0 & E1 & E2 & E3); [done..|].
  destruct (loc_write_frame set_delivery idl (loc_write set_booking ib lr))
    as (F0 & F1 & F2 & F3); [done..|].
  by rewrite F0, F1, F2, F3.
Qed.

Lemma imputed_table_outcome df mask st t :
  restaurants_to_impute df mask = Ok t →
  ((∀ l, l ∈ index t → l ∈ index (rows df)) →
   ∃ out, imputed_table df mask st = Ok out) ∧
  (∀ l, l ∈ index t → l ∉ index (rows df) →
   ∃ msg, imputed_table df mask st = Err (KeyError msg)).
Proof.
  intros Ht. split.
  - intros Hin. eexists. unfold imputed_table.
    by rewrite (impute_Ok df mask st t Ht).
  - intros l Hl Hn. rewrite imputed_table_eq, Ht. cbn [rbind].
    destruct (sample t st) as [[ib idl] st'] eqn:Hs. cbn [fst snd].
    destruct (index_sample _ _ _ _ _ Hs) as [Hib _].
    destruct (loc_set_KeyError set_booking ib (rows df) l) as [msg ->];
      [by rewrite Hib|done|].
    by exists msg.
Qed.

Section LoaderProps.

Variable clean_other : list string → list string.

Lemma csv_require_Ok csv c : c ∈ csv_columns csv → csv_require csv c = Ok ().
Proof. intros Hc. unfold csv_require. by rewrite bool_decide_eq_true_2. Qed.

Lemma csv_require_inv csv c : csv_require csv c = Ok () → c ∈ csv_columns csv.
Proof. unfold csv_require. by case_bool_decide. Qed.

Lemma str_accessor_Ok k : k ≠ NonTextColumn → str_accessor k = Ok ().
Proof. by destruct k. Qed.

Lemma str_accessor_inv k : str_accessor k = Ok () → k ≠ NonTextColumn.
Proof. by destruct k. Qed.

Lemma service_flag_None k : service_flag k None = false.
Proof. by destruct k. Qed.

Lemma prepare_Ok csv :
  has_loader_columns csv →
  accepts_str csv →
  prepare clean_other csv =
  Ok (mkDF (csv_columns csv)
           (prod_map id (clean_row clean_other csv) <$> dropna_name (csv_rows csv)),
      prod_map id csv_services <$> dropna_name (csv_rows csv)).
Proof.
  unfold has_loader_columns. rewrite !Forall_cons.
  intros (H1 & H2 & H3 & H4 & H5 & H6 & H7 & H8 & H9 & H10 & _) (K1 & K2 & K3).
  unfold prepare.
  by rewrite !csv_require_Ok, !str_accessor_Ok.
Qed.

Lemma prepare_inv csv p :
  prepare clean_other csv = Ok p →
  has_loader_columns csv ∧ accepts_str csv ∧
  p = (mkDF (csv_columns csv)
            (prod_map id (clean_row clean_other csv) <$> dropna_name (csv_rows csv)),
       prod_map id csv_services <$> dropna_name (csv_rows csv)).
Proof.
  intros Hp.
  assert (Hcols : has_loader_columns csv ∧ accepts_str csv).
  { unfold has_loader_columns, accepts_str. rewrite !Forall_cons.
    unfold prepare in Hp.
    repeat match type of Hp with
           | rbind (csv_require csv ?c) _ = _ =>
               let H := fresh "Hc" in
               destruct (csv_require csv c) as [[]|] eqn:H;
               [apply csv_require_inv in H; cbn [rbind] in Hp|discriminate Hp]
           | rbind (str_accessor ?k) _ = _ =>
               let H := fresh "Hk" in
               destruct (str_accessor k) as [[]|] eqn:H;
               [apply str_accessor_inv in H; cbn [rbind] in Hp|discriminate Hp]
           end.
    split_and!; done. }
  destruct Hcols as [Hcols Hstr]. split_and!; [done..|].
  rewrite (prepare_Ok csv Hcols Hstr) in Hp. by injection Hp.
Qed.

Lemma index_prod_map {A B} (f : A → B) (s : Series A) :
  index (prod_map id f <$> s) = index s.
Proof.
  unfold index. rewrite <- list_fmap_compose. apply list_fmap_ext. by intros ? [] _.
Qed.

Lemma cleaned_facts csv df mask :
  has_loader_columns csv →
  df = mkDF (csv_columns csv)
            (prod_map id (clean_row clean_other csv) <$> dropna_name (csv_rows csv)) →
  mask = prod_map id csv_services <$> dropna_name (csv_rows csv) →
  index (rows df) = index mask ∧
  has_column df "City" = true ∧
  has_column df "Has Table booking" = true ∧
  has_column df "Has Online delivery" = true ∧
  (∀ lr, lr ∈ rows df → City lr.2 ≠ None) ∧
  Forall2 (λ (lr : Z * Row) (lm : Z * RawServices),
             lr.1 = lm.1 ∧
             (all_null lm.2 = true →
              Has_Table_booking lr.2 = false ∧ Has_Online_delivery lr.2 = false ∧
              Is_delivering_now lr.2 = false))
          (rows df) mask.
Proof.
  intros Hcols -> ->. cbn [rows columns].
  unfold has_loader_columns in Hcols. rewrite !Forall_cons in Hcols.
  destruct Hcols as (_ & H2 & _ & _ & _ & _ & _ & H8 & H9 & _).
  split_and!.
  - by rewrite !index_prod_map.
  - by apply bool_decide_eq_true_2.
  - by apply bool_decide_eq_true_2.
  - by apply bool_decide_eq_true_2.
  - intros lr ([l r] & -> & _)%list_elem_of_fmap. done.
  - apply Forall2_fmap, Forall_Forall2_diag, Forall_forall.
    intros [l r] _. simpl. split; [done|].
    intros (Hb & Hd & Hn)%all_null_true.
    by rewrite Hb, Hd, Hn, !service_flag_None.
Qed.

Lemma prepared_facts csv df mask :
  prepare clean_other csv = Ok (df, mask) →
  index (rows df) = index mask ∧
  has_column df "City" = true ∧
  has_column df "Has Table booking" = true ∧
  has_column df "Has Online delivery" = true ∧
  (∀ lr, lr ∈ rows df → City lr.2 ≠ None) ∧
  Forall2 (λ (lr : Z * Row) (lm : Z * RawServices),
             lr.1 = lm.1 ∧
             (all_null lm.2 = true →
              Has_Table_booking lr.2 = false ∧ Has_Online_delivery lr.2 = false ∧
              Is_delivering_now lr.2 = false))
          (rows df) mask.
Proof.
  intros (Hcols & _ & [= -> ->])%prepare_inv. by eapply cleaned_facts.
Qed.

(** X9. The table and the mask that the loader hands to the imputation
    satisfy its preconditions: they have the same index, the table has the
    columns the imputation reads, no city cell is NaN, and a row whose three
    raw service cells are all empty arrives with its three flags false. *)
Theorem loader_meets_preconditions csv df mask :
  prepare clean_other csv = Ok (df, mask) →
  index (rows df) = index mask ∧
  has_column df "City" = true ∧
  has_column df "Has Table booking" = true ∧
  has_column df "Has Online delivery" = true ∧
  (∀ lr, lr ∈ rows df → City lr.2 ≠ None) ∧
  Forall2 (λ (lr : Z * Row) (lm : Z * RawServices),
             lr.1 = lm.1 ∧
             (all_null lm.2 = true →
              Has_Table_booking lr.2 = false ∧ Has_Online_delivery lr.2 = false ∧
              Is_delivering_now lr.2 = false))
          (rows df) mask.
Proof. apply prepared_facts. Qed.

Lemma take_true_prepared csv (named : Series CsvRow) :
  take_true (no_services_mask (prod_map id csv_services <$> named)).*2
            (prod_map id (clean_row clean_other csv) <$> named) =
  prod_map id (clean_row clean_other csv) <$>
    filter (λ lr : Z * CsvRow, all_null (csv_services lr.2) = true) named.
Proof.
  induction named as [|[l r] named IH]; [reflexivity|].
  rewrite filter_cons. unfold no_services_mask in *. csimpl.
  destruct (all_null (csv_services r)) eqn:Hr; simpl.
  - destruct (decide (true = true)); [|done]. csimpl. by rewrite IH.
  - destruct (decide (false = true)); [done|]. apply IH.
Qed.

Lemma restaurants_to_impute_prepared csv :
  has_loader_columns csv →
  ∃ t,
    restaurants_to_impute
      (mkDF (csv_columns csv)
            (prod_map id (clean_row clean_other csv) <$> dropna_name (csv_rows csv)))
      (prod_map id csv_services <$> dropna_name (csv_rows csv)) = Ok t ∧
    index t = RangeIndex (eligible_count csv).
Proof.
  intros Hcols.
  destruct (cleaned_facts csv _ _ Hcols eq_refl eq_refl)
    as (Hidx & H1 & H2 & H3 & _).
  eexists. split.
  - eapply restaurants_to_impute_Ok; [by apply city_probabilities_Ok|].
    unfold selected, getitem_bool, check_bool_indexer.
    rewrite index_no_services_mask, bool_decide_eq_true_2 by done.
    cbn [rbind rows]. by rewrite take_true_prepared.
  - rewrite index_merged, length_fmap. reflexivity.
Qed.

Lemma process_outcome csv st :
  has_loader_columns csv →
  (accepts_str csv →
   (∀ l, l ∈ RangeIndex (eligible_count csv) →
         l ∈ index (dropna_name (csv_rows csv))) →
   ∃ out, process clean_other csv st = Ok out ∧
     columns out = csv_columns csv ∧
     Forall2 (λ (lc : Z * CsvRow) (lr : Z * Row),
                lr.1 = lc.1 ∧
                City lr.2 = Some (default "Unknown"%string (csv_City lc.2)) ∧
                Is_delivering_now lr.2
                  = service_flag (kind_delivering_now csv)
                                 (raw_delivering_now (csv_services lc.2)) ∧
                ∃ name, csv_Restaurant_Name lc.2 = Some name ∧
                        other_columns lr.2 = name :: clean_other (csv_other lc.2))
             (dropna_name (csv_rows csv)) (rows out)) ∧
  (∀ l, l ∈ RangeIndex (eligible_count csv) →
        l ∉ index (dropna_name (csv_rows csv)) →
   ∃ e, process clean_other csv st = Err e).
Proof.
  intros Hcols.
  destruct (restaurants_to_impute_prepared csv Hcols) as (t & Ht & Hidx).
  destruct (imputed_table_outcome _ _ st t Ht) as [Hok Herr].
  rewrite Hidx in Hok, Herr. cbn [rows] in Hok, Herr.
  rewrite index_prod_map in Hok, Herr. split.
  - intros Hstr Hin. unfold process.
    rewrite (prepare_Ok csv Hcols Hstr). cbn [rbind fst snd].
    destruct (Hok Hin) as [out Hout]. exists out. split; [done|].
    destruct (imputed_rows_frame _ _ _ _ Hout) as [Hc Hrows].
    split; [done|]. cbn [rows] in Hrows.
    apply Forall2_fmap_l, Forall2_same_length_lookup in Hrows as [Hlen Hrows].
    apply Forall2_same_length_lookup. split; [done|].
    intros i [l c] [l' r] Hi Hi'.
    destruct (Hrows i _ _ Hi Hi') as (E0 & E1 & E2 & E3). simpl in *.
    split_and!; try done.
    apply list_elem_of_lookup_2, list_elem_of_filter in Hi as [[name Hname] _].
    simpl in Hname. exists name. split; [done|]. by rewrite E3, Hname.
  - intros l Hl Hn. unfold process.
    destruct (prepare clean_other csv) as [p|e] eqn:Hp; [|by exists e].
    apply prepare_inv in Hp as (_ & _ & ->). cbn [rbind fst snd].
    destruct (Herr l Hl Hn) as [msg ->]. by eexists.
Qed.

End LoaderProps.

Section LoaderTheorems.

Variable clean_other : list string → list string.

(** X10. A readable file with the ten columns, none of whose service
    columns makes [.str] raise, is loaded, and [restaurant_data] replaced,
    whenever each of the labels 0, ..., k-1 (k the number of named rows
    without service data) is the label of a row that has a name. The table
    stored has one row per named row of the file, under the same label,
    with the city defaulted to "Unknown", with 'Is delivering now' true
    exactly for a raw "yes" of a text column, and with the name the file
    gives. *)
Theorem load_succeeds_when_labels_survive csv restaurant_data st :
  has_loader_columns csv →
  accepts_str csv →
  (∀ l, l ∈ RangeIndex (eligible_count csv) →
        l ∈ index (dropna_name (csv_rows csv))) →
  ∃ out,
    load_and_process_data clean_other (Readable csv) restaurant_data st
      = (true, Some out) ∧
    columns out = csv_columns csv ∧
    Forall2 (λ (lc : Z * CsvRow) (lr : Z * Row),
               lr.1 = lc.1 ∧
               City lr.2 = Some (default "Unknown"%string (csv_City lc.2)) ∧
               Is_delivering_now lr.2
                 = service_flag (kind_delivering_now csv)
                                (raw_delivering_now (csv_services lc.2)) ∧
               ∃ name, csv_Restaurant_Name lc.2 = Some name ∧
                       other_columns lr.2 = name :: clean_other (csv_other lc.2))
            (dropna_name (csv_rows csv)) (rows out).
Proof.
  intros Hcols Hstr Hin.
  destruct (proj1 (process_outcome clean_other csv st Hcols) Hstr Hin)
    as (out & Hout & Hrest).
  exists out. split; [|done]. unfold load_and_process_data. by rewrite Hout.
Qed.

(** X11. When a row without a name is dropped and its label is one of
    0, ..., k-1 (k the number of named rows without service data), the
    assignment of the imputation raises, the load reports failure and
    [restaurant_data] is left as it was. *)
Theorem load_fails_when_label_dropped csv restaurant_data st l :
  has_loader_columns csv →
  l ∈ RangeIndex (eligible_count csv) →
  l ∉ index (dropna_name (csv_rows csv)) →
  load_and_process_data clean_other (Readable csv) restaurant_data st
    = (false, restaurant_data).
Proof.
  intros Hcols Hl Hn.
  destruct (proj2 (process_outcome clean_other csv st Hcols) l Hl Hn) as [e He].
  unfold load_and_process_data. by rewrite He.
Qed.

Lemma dropna_name_all (rs : Series CsvRow) :
  (∀ lr, lr ∈ rs → is_Some (csv_Restaurant_Name lr.2)) → dropna_name rs = rs.
Proof.
  intros Hall. unfold dropna_name. induction rs as [|lr rs IH]; [done|].
  rewrite filter_cons, decide_True by (apply Hall; left).
  f_equal. apply IH. intros lr' Hlr'. apply Hall. by right.
Qed.

(** X12. A readable file with the ten columns, none of whose service
    columns makes [.str] raise, with the default index of [read_csv] and a
    name in every row is always loaded, and the table stored has as many
    rows as the file. *)
Theorem load_succeeds_on_named_rows csv restaurant_data st :
  has_loader_columns csv →
  accepts_str csv →
  index (csv_rows csv) = RangeIndex (length (csv_rows csv)) →
  (∀ lr, lr ∈ csv_rows csv → is_Some (csv_Restaurant_Name lr.2)) →
  ∃ out,
    load_and_process_data clean_other (Readable csv) restaurant_data st
      = (true, Some out) ∧
    length (rows out) = length (csv_rows csv).
Proof.
  intros Hcols Hstr Hidx Hnames.
  pose proof (dropna_name_all (csv_rows csv) Hnames) as Hdrop.
  destruct (proj1 (process_outcome clean_other csv st Hcols) Hstr)
    as (out & Hout & _ & Hrows).
  { rewrite Hdrop, Hidx. intros l. rewrite !elem_of_RangeIndex.
    pose proof (length_filter_le
                  (λ lr : Z * CsvRow, all_null (csv_services lr.2) = true)
                  (dropna_name (csv_rows csv))) as Hle.
    rewrite Hdrop in Hle. unfold eligible_count. rewrite Hdrop. lia. }
  exists out. split.
  - unfold load_and_process_data. by rewrite Hout.
  - apply Forall2_length in Hrows. by rewrite <- Hrows, Hdrop.
Qed.

(** X13. A load that fails leaves [restaurant_data] as it was, but a reload
    that fails leaves the server without data, whatever was loaded before:
    [reload_data] clears the global first, answers 500 and reports no data
    and a count of 0. *)
Theorem failed_reload_discards_data file restaurant_data st :
  (load_and_process_data clean_other file None st).1 = false →
  load_and_process_data clean_other file restaurant_data st
    = (false, restaurant_data) ∧
  reload_data clean_other file restaurant_data st
    = (mkReloadStatus true false false (csv_exists file) 0, 500, None).
Proof.
  unfold reload_data, load_and_process_data.
  destruct file as [| |csv]; [done..|].
  destruct (process clean_other csv st); [discriminate|done].
Qed.

End LoaderTheorems.

(** A service column that [read_csv] reads as integers: the [.str] access
    of line 110 raises, and the load fails. *)
Lemma load_fails_on_numeric_service_column :
  prepare ServerExamples.keep_cells ServerExamples.numeric_service_csv
    = Err AttributeError ∧
  load_and_process_data ServerExamples.keep_cells
    (Readable ServerExamples.numeric_service_csv) None Examples.high_draws
    = (false, None).
Proof. split; reflexivity. Qed.

Lemma has_loader_columns_all rs k1 k2 k3 :
  has_loader_columns (mkCsv ServerExamples.csv_columns_all rs k1 k2 k3).
Proof. unfold has_loader_columns. apply Forall_forall. intros c Hc. exact Hc. Qed.

Lemma loader_meets_preconditions_witness :
  ∃ df mask,
    prepare ServerExamples.keep_cells ServerExamples.good_csv = Ok (df, mask) ∧
    index (rows df) = index mask.
Proof.
  eexists _, _. split; [reflexivity|].
  eapply (loader_meets_preconditions ServerExamples.keep_cells
            ServerExamples.good_csv).
  reflexivity.
Defined.

Lemma load_succeeds_when_labels_survive_witness :
  ∃ out, load_and_process_data ServerExamples.keep_cells
           (Readable ServerExamples.good_csv) None Examples.high_draws
         = (true, Some out).
Proof.
  destruct (load_succeeds_when_labels_survive ServerExamples.keep_cells
              ServerExamples.good_csv None Examples.high_draws)
    as (out & Hout & _).
  - apply has_loader_columns_all.
  - by split_and!.
  - intros l Hl. vm_compute in Hl. vm_compute.
    apply list_elem_of_In in Hl. apply list_elem_of_In. simpl in *. tauto.
  - by exists out.
Defined.

Lemma load_fails_when_label_dropped_witness :
  load_and_process_data ServerExamples.keep_cells
    (Readable ServerExamples.nameless_first_csv) (Some Examples.two_rows)
    Examples.high_draws
  = (false, Some Examples.two_rows).
Proof.
  apply (load_fails_when_label_dropped ServerExamples.keep_cells
           ServerExamples.nameless_first_csv (Some Examples.two_rows)
           Examples.high_draws 0%Z).
  - apply has_loader_columns_all.
  - refine (bool_decide_unpack _ _). vm_compute. exact I.
  - refine (bool_decide_unpack _ _). vm_compute. exact I.
Defined.

Lemma load_succeeds_on_named_rows_witness :
  ∃ out, load_and_process_data ServerExamples.keep_cells
           (Readable ServerExamples.good_csv) None Examples.low_draws
         = (true, Some out) ∧
         length (rows out) = 2.
Proof.
  apply (load_succeeds_on_named_rows ServerExamples.keep_cells
           ServerExamples.good_csv None Examples.low_draws).
  - apply has_loader_columns_all.
  - by split_and!.
  - reflexivity.
  - intros lr Hlr. apply list_elem_of_In in Hlr. simpl in Hlr.
    destruct Hlr as [<-|[<-|[]]]; by eexists.
Defined.

Lemma failed_reload_discards_data_witness :
  reload_data ServerExamples.keep_cells
    (Readable ServerExamples.nameless_first_csv) (Some Examples.two_rows)
    Examples.high_draws
  = (mkReloadStatus true false false true 0, 500, None).
Proof.
  apply (failed_reload_discards_data ServerExamples.keep_cells
           (Readable ServerExamples.nameless_first_csv) (Some Examples.two_rows)
           Examples.high_draws).
  vm_compute. reflexivity.
Defined.

(** ** The endpoints *)

Lemma column_frame {A} (f : Row → A) (rs rs' : Series Row) :
  Forall2 (λ a b : Z * Row, f b.2 = f a.2) rs rs' → column f rs' = column f rs.
Proof.
  unfold column. induction 1 as [|a b rs rs' Hab _ IH]; [done|].
  csimpl. by rewrite Hab, IH.
Qed.

(** X14. The 'Currently Delivering' figure of the services chart is the
    same on the table the imputation returns as on the table it was given:
    the imputation can change the two other figures only. *)
Theorem currently_delivering_unchanged df mask st out :
  imputed_table df mask st = Ok out →
  ∃ tb od,
    services_data (rows out) =
    [("Table Booking"%string, tb); ("Online Delivery"%string, od);
     ("Currently Delivering"%string, sum_bool (column Is_delivering_now (rows df)))].
Proof.
  intros [_ Hrows]%imputed_rows_frame. unfold services_data.
  eexists _, _. do 3 f_equal.
  rewrite (column_frame Is_delivering_now (rows df) (rows out)); [done|].
  eapply Forall2_impl; [exact Hrows|]. by intros a b (_ & _ & ? & _).
Qed.

Lemma currently_delivering_unchanged_witness :
  ∃ tb od,
    services_data (rows Examples.two_rows_out) =
    [("Table Booking"%string, tb); ("Online Delivery"%string, od);
     ("Currently Delivering"%string, 0)].
Proof.
  apply (currently_delivering_unchanged Examples.two_rows Examples.two_rows_raw
           Examples.high_draws Examples.two_rows_out).
  vm_compute. reflexivity.
Defined.

Lemma Qltb_negb r c : Qltb r c = negb (Qgeb r c).
Proof. unfold Qltb, Qgeb, Qle_bool. apply Z.ltb_antisym. Qed.

Lemma Qgeb_mono r c1 c2 : (c2 <= c1)%Q → Qgeb r c1 = true → Qgeb r c2 = true.
Proof.
  unfold Qgeb. rewrite !Qle_bool_iff. intros H1 H2. by eapply Qle_trans.
Qed.

Lemma count_where_cons test r l :
  count_where test (r :: l) = b2n (test r) + count_where test l.
Proof.
  unfold count_where. rewrite filter_cons.
  destruct (test r); simpl; [|reflexivity].
  by destruct (decide (true = true)).
Qed.

Lemma rating_in_one_range r :
  b2n (Qgeb r (9 # 2)) + b2n (Qgeb r (4 # 1) && Qltb r (9 # 2)) +
  b2n (Qgeb r (7 # 2) && Qltb r (4 # 1)) + b2n (Qgeb r (3 # 1) && Qltb r (7 # 2)) +
  b2n (Qltb r (3 # 1)) = 1.
Proof.
  rewrite !Qltb_negb.
  pose proof (Qgeb_mono r (9 # 2) (4 # 1) ltac:(discriminate)) as H1.
  pose proof (Qgeb_mono r (4 # 1) (7 # 2) ltac:(discriminate)) as H2.
  pose proof (Qgeb_mono r (7 # 2) (3 # 1) ltac:(discriminate)) as H3.
  destruct (Qgeb r (9 # 2)), (Qgeb r (4 # 1)), (Qgeb r (7 # 2)), (Qgeb r (3 # 1));
    simpl; try reflexivity;
    try (by specialize (H1 eq_refl)); try (by specialize (H2 eq_refl));
    by specialize (H3 eq_refl).
Qed.

(** X15. The five rating ranges partition the restaurants: every rating
    falls in exactly one of them, so the five counts add up to the number of
    rows. *)
Theorem rating_ranges_partition rating :
  total (rating_ranges rating) = length rating.
Proof.
  unfold total, rating_ranges. cbn [fmap list_fmap snd sum_list sum_list_with].
  induction rating as [|r rating IH]; [reflexivity|].
  rewrite !count_where_cons. cbn [length].
  pose proof (rating_in_one_range r). unfold id in *. lia.
Qed.

Lemma elem_of_unique l x : x ∈ unique l ↔ x ∈ l.
Proof.
  induction l as [|y l IH]; [done|]. cbn [unique].
  rewrite !elem_of_cons, list_elem_of_filter, IH.
  destruct (decide (x = y)); tauto.
Qed.

Lemma NoDup_unique l : NoDup (unique l).
Proof.
  induction l as [|y l IH]; [constructor|]. cbn [unique]. constructor.
  - rewrite list_elem_of_filter. by intros [? _].
  - by apply NoDup_filter.
Qed.

(** X16. The list of the city filter holds every city of the table exactly
    once, and nothing else, in ascending order. *)
Theorem get_cities_sorted_distinct city :
  StronglySorted String.le (get_cities city) ∧
  NoDup (get_cities city) ∧
  ∀ c, c ∈ get_cities city ↔ c ∈ city.
Proof.
  unfold get_cities. split_and!.
  - apply StronglySorted_merge_sort; apply _.
  - rewrite merge_sort_Permutation. apply NoDup_unique.
  - intros c. rewrite merge_sort_Permutation. apply elem_of_unique.
Qed.

(** X17. The 'Services' cell of the restaurant table never shows more than
    one service: it is one of the three icons or "None", a restaurant with
    table booking shows the booking icon whatever its delivery flags are,
    and "None" appears exactly when all three flags are false. *)
Theorem services_cell_single_icon row :
  (services_cell row = "📅"%string ∨ services_cell row = "🚚"%string ∨
   services_cell row = "🟢"%string ∨ services_cell row = "None"%string) ∧
  (Has_Table_booking row = true → services_cell row = "📅"%string) ∧
  (services_cell row = "None"%string ↔
   Has_Table_booking row = false ∧ Has_Online_delivery row = false ∧
   Is_delivering_now row = false).
Proof.
  unfold services_cell.
  destruct (Has_Table_booking row), (Has_Online_delivery row),
    (Is_delivering_now row); simpl; split_and!; try (intros; done); auto;
    split; (intros [=] || intros (? & ? & ?)); done.
Qed.

Section Requests.

Variable clean_other : list string → list string.

(** X18. [ensure_data_loaded] answers true exactly when [restaurant_data]
    holds a table after the call. A table that is already loaded is kept as
    it is, without a new load; without a table the call makes one load
    attempt and keeps its outcome, and with the file missing it answers
    false. *)
Theorem ensure_data_loaded_sound file restaurant_data st :
  ((ensure_data_loaded clean_other file restaurant_data st).1 = true ↔
   is_Some (ensure_data_loaded clean_other file restaurant_data st).2) ∧
  (∀ df, restaurant_data = Some df →
     ensure_data_loaded clean_other file restaurant_data st = (true, Some df)) ∧
  (restaurant_data = None →
     (ensure_data_loaded clean_other file restaurant_data st).2
     = (load_and_process_data clean_other file None st).2) ∧
  (restaurant_data = None → csv_exists file = false →
     ensure_data_loaded clean_other file restaurant_data st = (false, None)).
Proof.
  unfold ensure_data_loaded, load_data_on_startup.
  destruct restaurant_data as [df|].
  - split_and!; [split; [by eexists|done]|by intros ? [= <-]|done..].
  - destruct file as [| |csv]; simpl.
    + split_and!; [split; [done|by intros [? [=]]]|done..].
    + split_and!; [split; [done|by intros [? [=]]]|done..].
    + destruct (process clean_other csv st) as [out|e]; simpl.
      * split_and!; [split; [by eexists|done]|done..].
      * split_and!; [split; [done|by intros [? [=]]]|done..].
Qed.

End Requests.

Lemma ensure_data_loaded_sound_witness :
  ensure_data_loaded ServerExamples.keep_cells Missing
    (Some Examples.two_rows) Examples.high_draws
  = (true, Some Examples.two_rows) ∧
  ensure_data_loaded ServerExamples.keep_cells Missing None Examples.high_draws
  = (false, None).
Proof.
  split.
  - by apply (ensure_data_loaded_sound ServerExamples.keep_cells Missing
                (Some Examples.two_rows) Examples.high_draws).
  - by apply (ensure_data_loaded_sound ServerExamples.keep_cells Missing
                None Examples.high_draws).
Defined.
